(** * athena-sqlite: the Lambda glue and the storage core it drives

    Two parts.

    - [Glue] embeds [src/lambda-function/s3qlite.py]: the module constants,
      [ListSchemasRequest], [ListTablesRequest] and [lambda_handler].  Python
      values are a small inductive type, exceptions an outcome, and the calls
      into boto3, apsw, pyarrow and uuid are recorded in an effect trace.
    - [Core] is the storage adapter imported by the glue ([from vfs import
      S3VFS, S3VFSFile]): Range Fetcher, Page Cache, Virtual File Handle and
      Virtual Filesystem Registry. *)

From Stdlib Require Import ZArith String Ascii List Bool Lia.
From stdpp Require Import base option list gmap strings pretty.

Local Open Scope string_scope.
Set Warnings "-register-all".

(** ** Python values and outcomes *)

Module Py.

(** The values the handler meets: what a JSON Lambda event holds, what a
    SQLite cursor yields and what the handler returns.  A float is kept as
    its IEEE-754 bit pattern; a dict keeps its items in insertion order. *)
Inductive pyval : Type :=
| PNone
| PBool (b : bool)
| PInt (n : Z)
| PFloat (bits : Z)
| PStr (s : string)
| PBytes (b : list Byte.byte)
| PList (l : list pyval)
| PDict (d : list (string * pyval)).

Definition pydict : Type := list (string * pyval).

Inductive exn : Type :=
| KeyError (key : string)
| NameError (name : string)
| TypeError
| IndexError
| DatabaseError (msg : string)
| ArrowInvalid (msg : string).

(** [Unanswered]: the call waits for an answer the scripted collaborator
    does not hold. *)
Inductive outcome (A : Type) : Type :=
| Returned (a : A)
| Raised (e : exn)
| Unanswered.
Arguments Returned {A} a.
Arguments Raised {A} e.
Arguments Unanswered {A}.

(** [d.get(k)] on a dict: first item with that key. *)
Fixpoint dict_lookup (d : pydict) (k : string) : option pyval :=
  match d with
  | [] => None
  | (k', v) :: rest => if String.eqb k' k then Some v else dict_lookup rest k
  end.

(** [d.get(k)]: [None] when the key is absent. *)
Definition dict_get (d : pydict) (k : string) : pyval :=
  match dict_lookup d k with
  | Some v => v
  | None => PNone
  end.

(** [v == 'literal']: only a str equal to the literal compares equal. *)
Definition eq_str (v : pyval) (lit : string) : bool :=
  match v with
  | PStr s => String.eqb s lit
  | _ => false
  end.

(** [s.rstrip('/')]. *)
Fixpoint rstrip_slash (s : string) : string :=
  match s with
  | EmptyString => EmptyString
  | String c s' =>
      match rstrip_slash s' with
      | EmptyString => if Ascii.eqb c "/" then EmptyString else String c EmptyString
      | r => String c r
      end
  end.

(** [s.replace(old, new)] for a non-empty [old]: scan left to right, and at
    each match emit [new] and jump over the match ([skip] counts the matched
    characters still to jump over). *)
Fixpoint replace_from (skip : nat) (old new s : string) : string :=
  match s with
  | EmptyString => EmptyString
  | String c s' =>
      match skip with
      | S k => replace_from k old new s'
      | O =>
          if String.prefix old s
          then new +:+ replace_from (String.length old - 1) old new s'
          else String c (replace_from 0 old new s')
      end
  end.

(** With an empty [old] Python puts [new] before every character and at
    the end. *)
Fixpoint replace_empty (new s : string) : string :=
  match s with
  | EmptyString => new
  | String c s' => new +:+ String c (replace_empty new s')
  end.

Definition replace (s old new : string) : string :=
  match old with
  | EmptyString => replace_empty new s
  | _ => replace_from 0 old new s
  end.

(** [template.format(a, b, ...)] for templates whose only fields are [{}]:
    each [{}] takes the next argument; too few arguments is an IndexError. *)
Fixpoint format (template : string) (args : list string) : option string :=
  match template with
  | EmptyString => Some EmptyString
  | String c rest =>
      match rest with
      | String c' rest' =>
          if Ascii.eqb c "{" && Ascii.eqb c' "}"
          then match args with
               | a :: args' => String.append a <$> format rest' args'
               | [] => None
               end
          else String c <$> format rest args
      | EmptyString => String c <$> format rest args
      end
  end.

End Py.


(** ** The Lambda handler, [src/lambda-function/s3qlite.py] *)

Module Glue.
Import Py.

(** Open flags of SQLite as apsw exports them. *)
Definition SQLITE_OPEN_READONLY : Z := 1.
Definition SQLITE_OPEN_READWRITE : Z := 2.
Definition SQLITE_OPEN_CREATE : Z := 4.
Definition SQLITE_OPEN_URI : Z := 64.

(** What [list_objects_v2] answers; the handler reads two fields. *)
Record s3_object : Type := { Key : string }.
Record s3_response : Type := {
  Contents : option (list s3_object);
  NextContinuationToken : option string
}.

(** The keyword arguments of one [list_objects_v2] call. *)
Record list_params : Type := {
  Bucket : string;
  Prefix : string;
  Delimiter : string;
  ContinuationToken : option string
}.

(** pyarrow objects, kept as the constructor calls that built them. *)
Inductive arrow_type : Type := pa_int64 | pa_string.
Definition arrow_schema : Type := list (string * arrow_type).
Inductive arrow_obj : Type :=
| pa_schema (fields : arrow_schema)
| pa_RecordBatch_from_arrays (arrays : list (list pyval)) (schema : option arrow_schema).

(** Calls that leave the process, in the order they are made. *)
Inductive effect : Type :=
| Print (args : list pyval)
| ListObjectsV2 (params : list_params)
| NewS3VFS
| Connection (uri : string) (flags : Z) (vfs : string)
| Execute (uri : string) (sql : string).

Record world : Type := {
  trace : list effect;
  uuids_drawn : nat
}.

Definition M (A : Type) : Type := world -> outcome A * world.

Definition ret {A} (a : A) : M A := fun w => (Returned a, w).
Definition raise {A} (e : exn) : M A := fun w => (Raised e, w).
Definition unanswered {A} : M A := fun w => (Unanswered, w).
Definition bind {A B} (m : M A) (k : A -> M B) : M B :=
  fun w =>
    match m w with
    | (Returned a, w') => k a w'
    | (Raised e, w') => (Raised e, w')
    | (Unanswered, w') => (Unanswered, w')
    end.

Notation "x <- m ;; k" := (bind m (fun x => k))
  (at level 100, m at next level, right associativity).
Notation "m ;; k" := (bind m (fun _ => k))
  (at level 100, right associativity).

Definition log (e : effect) : M unit :=
  fun w => (Returned tt, {| trace := (trace w ++ [e])%list; uuids_drawn := uuids_drawn w |}).

(** [d[k]] on a dict. *)
Definition getitem (d : pydict) (k : string) : M pyval :=
  match dict_lookup d k with
  | Some v => ret v
  | None => raise (KeyError k)
  end.

(** [v[k]] with a str key on any value: only a dict takes one. *)
Definition subscript (v : pyval) (k : string) : M pyval :=
  match v with
  | PDict d => getitem d k
  | _ => raise TypeError
  end.

(** [row[i]] on a tuple. *)
Definition tuple_index (row : list pyval) (i : nat) : M pyval :=
  match nth_error row i with
  | Some v => ret v
  | None => raise IndexError
  end.

(** Loading a name bound neither in the function, nor in the module, nor
    in the builtins. *)
Definition unbound {A} (name : string) : M A := raise (NameError name).

Section Handler.

(** [os.environ['TARGET_BUCKET']] and [os.environ['TARGET_PREFIX']]. *)
Variable TARGET_BUCKET TARGET_PREFIX : string.
(** The answers of [S3_CLIENT.list_objects_v2], one per call. *)
Variable s3_answers : list s3_response.
(** [S3VFS().vfsname]. *)
Variable vfsname : string.
(** [apsw.Connection(uri, flags, vfs)]: the error it raises, if any. *)
Variable connection_error : string -> Z -> string -> option string.
(** [cursor.execute(sql)] on the database at [uri]: the rows it yields and
    the error that ends the iteration, if any. *)
Variable cursor_rows : string -> string -> list (list pyval) * option string.
(** [str(uuid4())], by draw. *)
Variable uuid4 : nat -> string.
(** [base64.b64encode(x.serialize().slice(4)).decode("utf-8")]. *)
Variable arrow_b64 : arrow_obj -> string.
(** [str(v)] for floats, bytes, lists and dicts. *)
Variable repr : pyval -> string.
(** [pa.RecordBatch.from_arrays([pa.array(c) for c in columns],
    schema=schema)]: the error pyarrow raises when the values of the columns
    do not fit the schema, if any. *)
Variable from_arrays_error : list (list pyval) -> arrow_schema -> option string.

Definition S3_BUCKET : string := TARGET_BUCKET.
Definition S3_PREFIX : string := rstrip_slash TARGET_PREFIX.
Definition CAPABILITIES : Z := 23.

(** [str(v)], which is what a [{}] field puts in the string. *)
Definition py_str (v : pyval) : string :=
  match v with
  | PNone => "None"
  | PBool true => "True"
  | PBool false => "False"
  | PInt n => pretty n
  | PStr s => s
  | _ => repr v
  end.

Definition str_format (template : string) (args : list pyval) : M string :=
  match format template (map py_str args) with
  | Some s => ret s
  | None => raise IndexError
  end.

Definition fresh_uuid : M string :=
  fun w => (Returned (uuid4 (uuids_drawn w)),
            {| trace := trace w; uuids_drawn := S (uuids_drawn w) |}).

Definition connect (uri : string) (flags : Z) (vfs : string) : M unit :=
  log (Connection uri flags vfs) ;;
  match connection_error uri flags vfs with
  | Some msg => raise (DatabaseError msg)
  | None => ret tt
  end.

(** [for row in cursor.execute(sql): body], threading the loop's variables
    [acc] through the iterations. *)
Fixpoint for_rows {A} (rows : list (list pyval)) (body : list pyval -> A -> M A)
    (acc : A) : M A :=
  match rows with
  | [] => ret acc
  | row :: rest => acc' <- body row acc ;; for_rows rest body acc'
  end.

Definition for_cursor {A} (uri sql : string) (body : list pyval -> A -> M A)
    (acc : A) : M A :=
  log (Execute uri sql) ;;
  acc' <- for_rows (fst (cursor_rows uri sql)) body acc ;;
  match snd (cursor_rows uri sql) with
  | Some msg => raise (DatabaseError msg)
  | None => ret acc'
  end.

(** [pa.RecordBatch.from_arrays([pa.array(c), ...], schema=schema)]. *)
Definition from_arrays (columns : list (list pyval)) (schema : arrow_schema)
    : M arrow_obj :=
  match from_arrays_error columns schema with
  | Some msg => raise (ArrowInvalid msg)
  | None => ret (pa_RecordBatch_from_arrays columns (Some schema))
  end.

(** *** ListSchemasRequest *)

Definition sqlite_basename (data : s3_object) : string :=
  replace (replace (Key data) (S3_PREFIX +:+ "/") EmptyString) ".sqlite" EmptyString.

(** The [while True] loop of [_list_sqlite_objects]: one iteration per
    answer. *)
Fixpoint _list_sqlite_objects_loop (answers : list s3_response)
    (params : list_params) (sqlite_filenames : list string) : M (list string) :=
  log (ListObjectsV2 params) ;;
  match answers with
  | [] => unanswered
  | response :: later =>
      let sqlite_filenames :=
        (sqlite_filenames ++ map sqlite_basename (default [] (Contents response)))%list in
      match NextContinuationToken response with
      | Some token =>
          _list_sqlite_objects_loop later
            {| Bucket := Bucket params; Prefix := Prefix params;
               Delimiter := Delimiter params; ContinuationToken := Some token |}
            sqlite_filenames
      | None => ret sqlite_filenames
      end
  end.

Definition _list_sqlite_objects : M (list string) :=
  let params := {| Bucket := S3_BUCKET; Prefix := S3_PREFIX +:+ "/";
                   Delimiter := "/"; ContinuationToken := None |} in
  _list_sqlite_objects_loop s3_answers params [].

Definition ListSchemasRequest_execute (event : pydict) : M pyval :=
  catalogName <- getitem event "catalogName" ;;
  schemas <- _list_sqlite_objects ;;
  ret (PDict [("@type", PStr "ListSchemasResponse");
              ("catalogName", catalogName);
              ("schemas", PList (map PStr schemas));
              ("requestType", PStr "LIST_SCHEMAS")]).

(** *** ListTablesRequest *)

Definition sqlite_vfs_path (event : pydict) : M string :=
  let sqlite_dbname := dict_get event "schemaName" in
  str_format "file:/{}/{}.sqlite?bucket={}" [PStr S3_PREFIX; sqlite_dbname; PStr S3_BUCKET].

Definition ListTablesRequest_execute (event : pydict) : M pyval :=
  sqlite_vfs_path <- sqlite_vfs_path event ;;
  catalogName <- getitem event "catalogName" ;;
  tables <- unbound "tables" ;;
  ret (PDict [("@type", PStr "ListTablesResponse");
              ("catalogName", catalogName);
              ("tables", tables);
              ("requestType", PStr "LIST_TABLES")]).

Definition _fetch_table_list (sqlite_path : string) : M pyval :=
  connect sqlite_path (Z.lor SQLITE_OPEN_READONLY SQLITE_OPEN_URI) vfsname ;;
  for_cursor sqlite_path
    "SELECT name FROM sqlite_master WHERE type='table' ORDER BY name;"
    (fun row tables =>
       name <- tuple_index row 0 ;;
       log (Print [PStr "Found table: "; name]) ;;
       sqlite_dbname <- unbound "sqlite_dbname" ;;
       name' <- tuple_index row 0 ;;
       ret (tables ++ [PDict [("schemaName", sqlite_dbname); ("tableName", name')]])%list)
    [] ;;
  ret PNone.

(** *** lambda_handler *)

Definition faux_schema : arrow_schema :=
  [("year", pa_int64); ("month", pa_int64); ("day", pa_int64); ("someval", pa_string)].

(** The four lists of the [records] dict of the ReadRecordsRequest branch. *)
Record record_columns : Type := {
  year : list pyval;
  month : list pyval;
  day : list pyval;
  someval : list pyval
}.

Definition append_record (row : list pyval) (records : record_columns) : M record_columns :=
  v0 <- tuple_index row 0 ;;
  v1 <- tuple_index row 1 ;;
  v2 <- tuple_index row 2 ;;
  v3 <- tuple_index row 3 ;;
  ret {| year := (year records ++ [v0])%list;
         month := (month records ++ [v1])%list;
         day := (day records ++ [v2])%list;
         someval := (someval records ++ [v3])%list |}.

Definition lambda_handler (event : pydict) (context : pyval) : M pyval :=
  log (Print [PDict event]) ;;
  request_type <- getitem event "@type" ;;
  if eq_str request_type "ListSchemasRequest" then
    ListSchemasRequest_execute event
  else if eq_str request_type "ListTablesRequest" then
    ListTablesRequest_execute event
  else if eq_str request_type "GetTableRequest" then
    tn <- getitem event "tableName" ;;
    databaseName <- subscript tn "schemaName" ;;
    tn <- getitem event "tableName" ;;
    tableName <- subscript tn "tableName" ;;
    log (Print [PStr "passing back faux table"]) ;;
    let s := pa_schema faux_schema in
    catalogName <- getitem event "catalogName" ;;
    log (Print [PDict [("@type", PStr "GetTableResponse");
                       ("catalogName", catalogName);
                       ("tableName", PDict [("schemaName", databaseName);
                                            ("tableName", tableName)]);
                       ("schema", PDict [("schema", PStr (arrow_b64 s))]);
                       ("partitionColumns", PList []);
                       ("requestType", PStr "GET_TABLE")]]) ;;
    catalogName <- getitem event "catalogName" ;;
    ret (PDict [("@type", PStr "GetTableResponse");
                ("catalogName", catalogName);
                ("tableName", PDict [("schemaName", databaseName);
                                     ("tableName", tableName)]);
                ("schema", PDict [("schema", PStr (arrow_b64 s))]);
                ("partitionColumns", PList []);
                ("requestType", PStr "GET_TABLE")])
  else if eq_str request_type "PingRequest" then
    catalogName <- getitem event "catalogName" ;;
    queryId <- getitem event "queryId" ;;
    ret (PDict [("@type", PStr "PingResponse");
                ("catalogName", catalogName);
                ("queryId", queryId);
                ("sourceType", PStr "sqlite");
                ("capabilities", PInt CAPABILITIES)])
  else if eq_str request_type "GetTableLayoutRequest" then
    tn <- getitem event "tableName" ;;
    databaseName <- subscript tn "schemaName" ;;
    tn <- getitem event "tableName" ;;
    tableName <- subscript tn "tableName" ;;
    block_aId <- fresh_uuid ;;
    let block :=
      PDict [("aId", PStr block_aId);
             ("schema", PStr (arrow_b64 (pa_schema [])));
             ("records", PStr (arrow_b64 (pa_RecordBatch_from_arrays [] None)))] in
    cloudwatch_aId <- fresh_uuid ;;
    let cloudwatch :=
      PDict [("aId", PStr cloudwatch_aId);
             ("schema", PStr "nAAAABAAAAAAAAoADgAGAA0ACAAKAAAAAAADABAAAAAAAQoADAAAAAgABAAKAAAACAAAAAgAAAAAAAAAAQAAABgAAAAAABIAGAAUABMAEgAMAAAACAAEABIAAAAUAAAAFAAAABwAAAAAAAIBIAAAAAAAAAAAAAAACAAMAAgABwAIAAAAAAAAASAAAAALAAAAcGFydGl0aW9uSWQAAAAAAA==");
             ("records", PStr "jAAAABQAAAAAAAAADAAWAA4AFQAQAAQADAAAABAAAAAAAAAAAAADABAAAAAAAwoAGAAMAAgABAAKAAAAFAAAADgAAAABAAAAAAAAAAAAAAACAAAAAAAAAAAAAAABAAAAAAAAAAgAAAAAAAAABAAAAAAAAAAAAAAAAQAAAAEAAAAAAAAAAAAAAAAAAAAAAAAAAQAAAAAAAAABAAAAAAAAAA==")] in
    catalogName <- getitem event "catalogName" ;;
    ret (PDict [("@type", PStr "GetTableLayoutResponse");
                ("catalogName", catalogName);
                ("tableName", PDict [("schemaName", databaseName);
                                     ("tableName", tableName)]);
                ("partitions", cloudwatch);
                ("requestType", PStr "GET_TABLE_LAYOUT")])
  else if eq_str request_type "GetSplitsRequest" then
    catalogName <- getitem event "catalogName" ;;
    ret (PDict [("@type", PStr "GetSplitsResponse");
                ("catalogName", catalogName);
                ("splits",
                 PList [PDict [("spillLocation",
                                PDict [("@type", PStr "S3SpillLocation");
                                       ("bucket", PStr S3_BUCKET);
                                       ("key", PStr "athena-spill/7b2b96c9-1be5-4810-ac2a-163f754e132c/1a50edb8-c4c7-41d7-8a0d-1ce8e510755f");
                                       ("directory", PBool true)]);
                               ("properties", PDict [])]]);
                ("continuationToken", PNone);
                ("requestType", PStr "GET_SPLITS")])
  else if eq_str request_type "ReadRecordsRequest" then
    let records := {| year := []; month := []; day := []; someval := [] |} in
    log NewS3VFS ;;
    uri <- str_format "file:/{}/sample_data.sqlite?bucket={}" [PStr S3_PREFIX; PStr S3_BUCKET] ;;
    connect uri (Z.lor SQLITE_OPEN_READONLY SQLITE_OPEN_URI) vfsname ;;
    records <- for_cursor uri "SELECT * FROM records" append_record records ;;
    let schema := faux_schema in
    records <-
      from_arrays [year records; month records; day records; someval records] schema ;;
    catalogName <- getitem event "catalogName" ;;
    aId <- fresh_uuid ;;
    ret (PDict [("@type", PStr "ReadRecordsResponse");
                ("catalogName", catalogName);
                ("records", PDict [("aId", PStr aId);
                                   ("schema", PStr (arrow_b64 (pa_schema schema)));
                                   ("records", PStr (arrow_b64 records))]);
                ("requestType", PStr "READ_RECORDS")])
  else
    ret PNone.

End Handler.

(** *** What the claims speak of *)

(** The open URI: the object key as the path, the bucket as the [bucket]
    query parameter. *)
Definition vfs_uri (prefix schema bucket : string) : string :=
  "file:/" +:+ prefix +:+ "/" +:+ schema +:+ ".sqlite?bucket=" +:+ bucket.

(** [m], run in any world, adds to the trace only effects that satisfy [P]. *)
Definition emits {A} (P : effect -> Prop) (m : M A) : Prop :=
  forall w, exists new, trace (snd (m w)) = (trace w ++ new)%list /\ Forall P new.

(** A connection is opened read-only with URI handling (neither the
    read-write nor the create bit is set), and a statement is a SELECT. *)
Definition read_only_effect (e : effect) : Prop :=
  match e with
  | Connection _ flags _ =>
      flags = Z.lor SQLITE_OPEN_READONLY SQLITE_OPEN_URI
      /\ Z.land flags SQLITE_OPEN_READWRITE = 0%Z
      /\ Z.land flags SQLITE_OPEN_CREATE = 0%Z
  | Execute _ sql => String.prefix "SELECT " sql = true
  | _ => True
  end.

(** Every connection is opened on [uri]. *)
Definition connects_to (uri : string) (e : effect) : Prop :=
  match e with
  | Connection uri' _ _ => uri' = uri
  | _ => True
  end.

(** The rows of a four-column batch. *)
Fixpoint zip4 {A} (a b c d : list A) : list (list A) :=
  match a, b, c, d with
  | x :: a', y :: b', z :: c', t :: d' => [x; y; z; t] :: zip4 a' b' c' d'
  | _, _, _, _ => []
  end.

(** Column [i] of the rows a cursor yielded. *)
Definition column (i : nat) (rows : list (list pyval)) : list pyval :=
  map (fun row => nth i row PNone) rows.

(** The objects a run of listing pages lists, in listing order. *)
Definition listed_objects (pages : list s3_response) : list s3_object :=
  flat_map (fun r => default [] (Contents r)) pages.

(** The world once [e] has happened. *)
Definition after (w : world) (es : list effect) : world :=
  {| trace := (trace w ++ es)%list; uuids_drawn := uuids_drawn w |}.

Definition has_token (r : s3_response) : Prop := is_Some (NextContinuationToken r).

(** The request of a listing page, by the token it carries. *)
Definition listing_request (prefix bucket : string) (token : option string) : list_params :=
  {| Bucket := bucket; Prefix := prefix +:+ "/"; Delimiter := "/";
     ContinuationToken := token |}.

Definition handled_types : list string :=
  ["ListSchemasRequest"; "ListTablesRequest"; "GetTableRequest"; "PingRequest";
   "GetTableLayoutRequest"; "GetSplitsRequest"; "ReadRecordsRequest"].

(** *** A deployment to run the handler on *)

Definition demo_pages : list s3_response :=
  [ {| Contents := Some [ {| Key := "data/sales.sqlite" |}; {| Key := "data/hr.sqlite" |} ];
       NextContinuationToken := Some "t1" |};
    {| Contents := Some [ {| Key := "data/ops.sqlite" |} ];
       NextContinuationToken := None |} ].

Definition demo_rows : list (list pyval) :=
  [ [PInt 2019; PInt 12; PInt 24; PStr "a"]; [PInt 2020; PInt 1; PInt 2; PStr "b"] ].

(** A pyarrow that takes ints in the int64 range for an int64 field, strs
    for a string field and [None] for either. *)
Definition fits (t : arrow_type) (v : pyval) : bool :=
  match t, v with
  | _, PNone => true
  | pa_int64, PInt n => ((- 2 ^ 63 <=? n) && (n <? 2 ^ 63))%Z
  | pa_string, PStr _ => true
  | _, _ => false
  end.

Fixpoint columns_fit (columns : list (list pyval)) (schema : arrow_schema) : bool :=
  match columns, schema with
  | [], [] => true
  | column :: columns', (_, t) :: schema' =>
      forallb (fits t) column && columns_fit columns' schema'
  | _, _ => false
  end.

Definition demo_from_arrays_error (columns : list (list pyval)) (schema : arrow_schema)
    : option string :=
  if columns_fit columns schema then None else Some "Could not convert".

Definition demo_handler : pydict -> pyval -> M pyval :=
  lambda_handler "bucket" "data/" demo_pages "s3vfs"
    (fun _ _ _ => None) (fun _ _ => (demo_rows, None))
    (fun n => pretty n) (fun _ => "arrow") (fun _ => "repr")
    demo_from_arrays_error.

Definition world0 : world := {| trace := []; uuids_drawn := 0 |}.

End Glue.


(** ** The storage core driven through [S3VFS] *)

Module Core.
Local Close Scope string_scope.
Local Open Scope nat_scope.

Abbreviation bytes := (list Byte.byte).

(** Modelled from the spec: Object Reference, the store identifier (bucket)
    and the object key.  It is absent from src/, as is the whole [vfs]
    module that this part models. *)
Definition object_ref : Type := (string * string)%type.

(** Modelled from the spec: the error taxonomy of the core (absent from
    src/). *)
Inductive error : Type :=
| NotFound
| Transient
| RangeUnsatisfiable
| ShortRead
| Unsupported
| InvalidArgument.

(** Modelled from the spec: what an operation of the core answers (absent
    from src/). *)
Inductive result (A : Type) : Type :=
| Ok (a : A)
| Err (e : error).
Arguments Ok {A} a.
Arguments Err {A} e.

(** Modelled from the spec: the key of a Cache Entry, (Object Reference,
    Block Index) (absent from src/). *)
Definition block_key : Type := (object_ref * nat)%type.

(** Modelled from the spec: the state shared by the handles of one
    registry (absent from src/): the transport (the outcomes the network
    holds for the coming attempts, [true] a transient failure, and the count
    of attempts made) and the Page Cache, most recently used entry first. *)
Record state : Type := {
  faults : list bool;
  attempts : nat;
  cache : list (block_key * bytes)
}.

(** Modelled from the spec: the lock modes none, shared and exclusive
    (absent from src/). *)
Inductive lock_mode : Type := LockNone | LockShared | LockExclusive.

(** Modelled from the spec: Virtual File Handle State (absent from src/). *)
Record handle : Type := {
  href : object_ref;
  hsize : nat;
  hlock : lock_mode;
  hclosed : bool
}.

Section Registry.

(** The object store: immutable objects by reference. *)
Variable store : gmap object_ref bytes.
(** Configuration: block size and cache capacity in bytes, and the fixed
    maximum number of attempts of one fetch. *)
Variable block_size capacity max_attempts : nat.
(** How a connection URI names its object; [None] for a malformed URI. *)
Variable parse_uri : string -> option object_ref.

(** *** Range Fetcher *)

(** Modelled from the spec: the range GET that one attempt issues.  It is
    absent from src/ (the [vfs] module).  The bytes of [offset, offset +
    length) that the object holds: all [length] of them when the range lies
    inside the object, the tail of the object when the range crosses its end
    (the Page Cache relies on this for the last block). *)
Definition range_get (ref : object_ref) (offset length : nat) : result bytes :=
  match store !! ref with
  | None => Err NotFound
  | Some data =>
      if List.length data <=? offset then Err RangeUnsatisfiable
      else Ok (take length (drop offset data))
  end.

(** Modelled from the spec: the metadata probe of one attempt (absent from
    src/). *)
Definition head_size (ref : object_ref) : result nat :=
  match store !! ref with
  | None => Err NotFound
  | Some data => Ok (List.length data)
  end.

(** Modelled from the spec: one underlying attempt (absent from src/).  It
    is counted, takes the network's next outcome, and answers [request]
    unless that outcome is a transient failure. *)
Definition attempt {A} (request : result A) (st : state) : result A * state :=
  let st' := {| faults := tail (faults st);
                attempts := S (attempts st);
                cache := cache st |} in
  match faults st with
  | true :: _ => (Err Transient, st')
  | _ => (request, st')
  end.

(** Modelled from the spec: the retry loop of the Range Fetcher (absent
    from src/).  Only [Transient] is retried; every other answer is
    returned as it is; with the attempts used up, [Transient] is surfaced.
    The backoff delay between attempts takes time only. *)
Fixpoint with_retry {A} (budget : nat) (request : result A) (st : state)
    : result A * state :=
  match budget with
  | O => (Err Transient, st)
  | S budget' =>
      match attempt request st with
      | (Err Transient, st') => with_retry budget' request st'
      | answer => answer
      end
  end.

(** Modelled from the spec: [fetch(object_ref, offset, length)] of the
    Range Fetcher (absent from src/). *)
Definition fetch (ref : object_ref) (offset length : nat) (st : state)
    : result bytes * state :=
  with_retry max_attempts (range_get ref offset length) st.

(** Modelled from the spec: [probe_size(object_ref)] of the Range Fetcher
    (absent from src/). *)
Definition probe_size (ref : object_ref) (st : state) : result nat * state :=
  with_retry max_attempts (head_size ref) st.

(** *** Page Cache *)

(** Modelled from the spec: the Cache Entry of a key, if resident (absent
    from src/). *)
Fixpoint cache_lookup (k : block_key) (c : list (block_key * bytes)) : option bytes :=
  match c with
  | [] => None
  | (k', blk) :: rest => if decide (k' = k) then Some blk else cache_lookup k rest
  end.

(** Modelled from the spec: the cache without the entry of a key (absent
    from src/). *)
Fixpoint cache_remove (k : block_key) (c : list (block_key * bytes))
    : list (block_key * bytes) :=
  match c with
  | [] => []
  | (k', blk) :: rest =>
      if decide (k' = k) then cache_remove k rest else (k', blk) :: cache_remove k rest
  end.

(** Modelled from the spec: least-recently-used eviction down to [room]
    bytes (absent from src/).  Entries leave from the cold end, so what
    stays is the longest warm prefix that fits. *)
Fixpoint keep_within (room : nat) (c : list (block_key * bytes))
    : list (block_key * bytes) :=
  match c with
  | [] => []
  | (k, blk) :: rest =>
      if List.length blk <=? room
      then (k, blk) :: keep_within (room - List.length blk) rest
      else []
  end.

(** Modelled from the spec: inserting a fetched block (absent from src/).
    Eviction runs only as far as the new block needs; a block larger than
    the whole capacity is handed to the reader without becoming resident. *)
Definition cache_insert (k : block_key) (blk : bytes) (c : list (block_key * bytes))
    : list (block_key * bytes) :=
  if capacity <? List.length blk then c
  else (k, blk) :: keep_within (capacity - List.length blk) (cache_remove k c).

(** The state with its cache replaced. *)
Definition with_cache (st : state) (c : list (block_key * bytes)) : state :=
  {| faults := faults st; attempts := attempts st; cache := c |}.

(** Modelled from the spec: one block of a read (absent from src/).  A hit
    is served from the cache and becomes the most recently used entry; a
    miss is one whole-block fetch. *)
Definition get_block (ref : object_ref) (i : nat) (st : state) : result bytes * state :=
  match cache_lookup (ref, i) (cache st) with
  | Some blk => (Ok blk, with_cache st ((ref, i, blk) :: cache_remove (ref, i) (cache st)))
  | None =>
      match fetch ref (i * block_size) block_size st with
      | (Ok blk, st') => (Ok blk, with_cache st' (cache_insert (ref, i) blk (cache st')))
      | (Err e, st') => (Err e, st')
      end
  end.

(** Modelled from the spec: the covering blocks of a read (absent from
    src/): blocks [first], [first + 1], ... ([count] of them), joined. *)
Fixpoint get_blocks (ref : object_ref) (first count : nat) (st : state)
    : result bytes * state :=
  match count with
  | O => (Ok [], st)
  | S count' =>
      match get_block ref first st with
      | (Ok blk, st') =>
          match get_blocks ref (S first) count' st' with
          | (Ok more, st'') => (Ok (blk ++ more)%list, st'')
          | (Err e, st'') => (Err e, st'')
          end
      | (Err e, st') => (Err e, st')
      end
  end.

(** Modelled from the spec: [read(object_ref, offset, length)] of the Page
    Cache (absent from src/): the covering blocks, then the slice. *)
Definition cache_read (ref : object_ref) (offset length : nat) (st : state)
    : result bytes * state :=
  if length =? 0 then (Ok [], st)
  else
    let first := offset / block_size in
    let last := (offset + length - 1) / block_size in
    match get_blocks ref first (S (last - first)) st with
    | (Ok span, st') => (Ok (take length (drop (offset - first * block_size) span)), st')
    | (Err e, st') => (Err e, st')
    end.

(** *** Virtual File Handle *)

(** Modelled from the spec: [read_at(offset, length)] (absent from src/).
    A range that extends beyond Object Size is a ShortRead; any other is
    delegated to the Page Cache, whose failures propagate unchanged (the
    engine sees a surfaced [Transient] as an I/O failure on the file). *)
Definition read_at (h : handle) (offset length : nat) (st : state)
    : result bytes * state :=
  if hsize h <? offset + length then (Err ShortRead, st)
  else cache_read (href h) offset length st.

(** Modelled from the spec: [size()], the Object Size cached at open
    (absent from src/). *)
Definition size (h : handle) : nat := hsize h.

(** Modelled from the spec: [write_at(...)] (absent from src/). *)
Definition write_at (h : handle) (offset : nat) (data : bytes) (st : state)
    : result unit * state :=
  (Err Unsupported, st).

(** Modelled from the spec: [truncate(...)] (absent from src/). *)
Definition truncate (h : handle) (new_size : nat) (st : state) : result unit * state :=
  (Err Unsupported, st).

(** Modelled from the spec: [lock(mode)] (absent from src/).  Locks are
    always granted, there is nothing to flush, and a close leaves the cached
    blocks where they are. *)
Definition lock (h : handle) (mode : lock_mode) : result unit * handle :=
  (Ok tt, {| href := href h; hsize := hsize h; hlock := mode; hclosed := hclosed h |}).

(** Modelled from the spec: [unlock()] (absent from src/). *)
Definition unlock (h : handle) : result unit * handle :=
  (Ok tt, {| href := href h; hsize := hsize h; hlock := LockNone; hclosed := hclosed h |}).

(** Modelled from the spec: [sync()] (absent from src/). *)
Definition sync (h : handle) (st : state) : result unit * state := (Ok tt, st).

(** Modelled from the spec: [close()] (absent from src/). *)
Definition close (h : handle) : result unit * handle :=
  (Ok tt, {| href := href h; hsize := hsize h; hlock := hlock h; hclosed := true |}).

(** *** Virtual Filesystem Registry *)

(** Modelled from the spec: [open(uri)] (absent from src/).  The object's
    existence is checked by the size probe, whose failure is the failure of
    the open. *)
Definition open (uri : string) (st : state) : result handle * state :=
  match parse_uri uri with
  | None => (Err InvalidArgument, st)
  | Some ref =>
      match probe_size ref st with
      | (Ok n, st') =>
          (Ok {| href := ref; hsize := n; hlock := LockNone; hclosed := false |}, st')
      | (Err e, st') => (Err e, st')
      end
  end.

(** Modelled from the spec: [delete(uri)] (absent from src/). *)
Definition delete (uri : string) (st : state) : result unit * state :=
  (Err Unsupported, st).

(** Modelled from the spec: [access_check(uri, mode)] (absent from src/):
    readable exactly when the probe succeeds. *)
Definition access_check (uri : string) (st : state) : bool * state :=
  match parse_uri uri with
  | None => (false, st)
  | Some ref =>
      match probe_size ref st with
      | (Ok _, st') => (true, st')
      | (Err _, st') => (false, st')
      end
  end.

(** *** What the claims speak of *)

(** Block [i] of an object. *)
Definition block_of (data : bytes) (i : nat) : bytes :=
  take block_size (drop (i * block_size) data).

(** Every resident block is the block of its key in the store. *)
Definition coherent (c : list (block_key * bytes)) : Prop :=
  Forall (fun e =>
            exists data, store !! fst (fst e) = Some data
                         /\ snd (fst e) * block_size < List.length data
                         /\ snd e = block_of data (snd (fst e))) c.

(** An open handle is one that [open] returned. *)
Definition opened (h : handle) : Prop :=
  exists uri st st', open uri st = (Ok h, st').

(** The states a registry passes through: it starts with an empty cache on
    some network, and moves by opens, access checks and reads through open
    handles (no other operation changes the shared state). *)
Inductive reachable : state -> Prop :=
| reach_start network :
    reachable {| faults := network; attempts := 0; cache := [] |}
| reach_open uri st answer st' :
    reachable st -> open uri st = (answer, st') -> reachable st'
| reach_access_check uri st answer st' :
    reachable st -> access_check uri st = (answer, st') -> reachable st'
| reach_read h offset length st answer st' :
    reachable st -> opened h -> read_at h offset length st = (answer, st') ->
    reachable st'.

End Registry.

(** The transient failures the network holds before its next answer. *)
Fixpoint leading_faults (network : list bool) : nat :=
  match network with
  | true :: later => S (leading_faults later)
  | _ => 0
  end.

(** The retries absorb the network's failures: from no point on does it
    fail [budget] times in a row. *)
Definition absorbed (budget : nat) (network : list bool) : Prop :=
  forall k, leading_faults (drop k network) < budget.

(** A registry that has fetched nothing yet. *)
Definition fresh (network : list bool) : state :=
  {| faults := network; attempts := 0; cache := [] |}.

(** *** A store to run the core on *)

Definition demo_ref : object_ref := ("mybucket"%string, "catalog.db"%string).

Definition demo_data : bytes :=
  [Byte.x53; Byte.x51; Byte.x4c; Byte.x69; Byte.x74; Byte.x65; Byte.x20;
   Byte.x66; Byte.x6f; Byte.x72].

Definition demo_store : gmap object_ref bytes := {[ demo_ref := demo_data ]}.

Definition demo_handle : handle :=
  {| href := demo_ref; hsize := 10; hlock := LockNone; hclosed := false |}.

Definition demo_parse (uri : string) : option object_ref :=
  if String.eqb uri "file:/catalog.db?bucket=mybucket" then Some demo_ref else None.

End Core.

(** ** More of what the handler's code shows *)

Module GlueProps.
Import Py Glue.

(** [n] slashes. *)
Fixpoint slashes (n : nat) : string :=
  match n with
  | O => EmptyString
  | S n' => String "/" (slashes n')
  end.

(** Whether the character [c] occurs in [s]. *)
Fixpoint has_char (c : ascii) (s : string) : bool :=
  match s with
  | EmptyString => false
  | String a s' => Ascii.eqb a c || has_char c s'
  end.

(** The key of the database file of schema [name] under [prefix]. *)
Definition database_key (prefix name : string) : string :=
  prefix +:+ "/" +:+ name +:+ ".sqlite".

(** The request kinds that [lambda_handler] answers with a response. *)
Definition answered_kinds : list string :=
  ["ListSchemas"; "GetTable"; "Ping"; "GetTableLayout"; "GetSplits"; "ReadRecords"].

(** Effects that reach for the database, and effects that list the bucket. *)
Definition database_effect (e : effect) : Prop :=
  match e with
  | NewS3VFS | Connection _ _ _ | Execute _ _ => True
  | _ => False
  end.

Definition listing_effect (e : effect) : Prop :=
  match e with
  | ListObjectsV2 _ => True
  | _ => False
  end.

(** [m1] and [m2] do the same whatever was traced before: from worlds with
    as many uuids drawn they come to the same outcome, add the same effects
    and draw as many uuids. *)
Definition alike {A} (m1 m2 : M A) : Prop :=
  forall w1 w2,
    uuids_drawn w1 = uuids_drawn w2 ->
    exists new,
      fst (m1 w1) = fst (m2 w2)
      /\ trace (snd (m1 w1)) = (trace w1 ++ new)%list
      /\ trace (snd (m2 w2)) = (trace w2 ++ new)%list
      /\ uuids_drawn (snd (m1 w1)) = uuids_drawn (snd (m2 w2)).

(** *** Events and tables to run the handler on *)

Definition ping_event : pydict :=
  [("@type", PStr "PingRequest"); ("catalogName", PStr "c"); ("queryId", PStr "q")].

Definition ping_response : pyval :=
  PDict [("@type", PStr "PingResponse"); ("catalogName", PStr "c");
         ("queryId", PStr "q"); ("sourceType", PStr "sqlite");
         ("capabilities", PInt 23)].

Definition get_table_event (table : pyval) : pydict :=
  [("@type", PStr "GetTableRequest"); ("catalogName", PStr "c"); ("tableName", table)].

Definition layout_event (table : string) : pydict :=
  [("@type", PStr "GetTableLayoutRequest"); ("catalogName", PStr "c");
   ("tableName", PDict [("schemaName", PStr "sales"); ("tableName", PStr table)])].

Definition read_records_event (table : string) : pydict :=
  [("@type", PStr "ReadRecordsRequest"); ("catalogName", PStr "c");
   ("tableName", PDict [("schemaName", PStr "sales"); ("tableName", PStr table)])].




(** A listing that holds more than database files. *)
Definition mixed_pages : list s3_response :=
  [ {| Contents := Some [ {| Key := "data/" |}; {| Key := "data/notes" |} ];
       NextContinuationToken := Some "t1" |};
    {| Contents := Some [ {| Key := "data/sales.sqlite" |}; {| Key := "data/sales" |} ];
       NextContinuationToken := None |} ].


End GlueProps.

(** ** Facts about the handler *)

Section GlueFacts.
Import Py Glue.
Local Open Scope list_scope.

Context (TARGET_BUCKET TARGET_PREFIX : string)
        (s3_answers : list s3_response)
        (vfsname : string)
        (connection_error : string -> Z -> string -> option string)
        (cursor_rows : string -> string -> list (list pyval) * option string)
        (uuid4 : nat -> string)
        (arrow_b64 : arrow_obj -> string)
        (repr : pyval -> string)
        (from_arrays_error : list (list pyval) -> arrow_schema -> option string).

Local Abbreviation S3_BUCKET := (Glue.S3_BUCKET TARGET_BUCKET).
Local Abbreviation S3_PREFIX := (Glue.S3_PREFIX TARGET_PREFIX).
Local Abbreviation lambda_handler :=
  (Glue.lambda_handler TARGET_BUCKET TARGET_PREFIX s3_answers vfsname
     connection_error cursor_rows uuid4 arrow_b64 repr from_arrays_error).
Local Abbreviation ListSchemasRequest_execute :=
  (Glue.ListSchemasRequest_execute TARGET_BUCKET TARGET_PREFIX s3_answers).
Local Abbreviation ListTablesRequest_execute :=
  (Glue.ListTablesRequest_execute TARGET_BUCKET TARGET_PREFIX repr).
Local Abbreviation sqlite_vfs_path := (Glue.sqlite_vfs_path TARGET_BUCKET TARGET_PREFIX repr).
Local Abbreviation _fetch_table_list :=
  (Glue._fetch_table_list vfsname connection_error cursor_rows).
Local Abbreviation records_uri := (vfs_uri S3_PREFIX "sample_data" S3_BUCKET).

(** *** Strings *)

Lemma append_empty_r (s : string) : s +:+ EmptyString = s.
Proof.
  induction s as [|c s IH]; [reflexivity |].
  change (String c s +:+ EmptyString) with (String c (s +:+ EmptyString)).
  now rewrite IH.
Qed.

Lemma format_vfs_path (a b c : string) :
  format "file:/{}/{}.sqlite?bucket={}" [a; b; c] = Some (vfs_uri a b c).
Proof.
  transitivity (Some (vfs_uri a b (c +:+ EmptyString))); [reflexivity |].
  now rewrite append_empty_r.
Qed.

Lemma format_records_uri (a c : string) :
  format "file:/{}/sample_data.sqlite?bucket={}" [a; c] = Some (vfs_uri a "sample_data" c).
Proof.
  transitivity (Some (vfs_uri a "sample_data" (c +:+ EmptyString))); [reflexivity |].
  now rewrite append_empty_r.
Qed.

(** [str.replace] by its three rules: a match at the head is replaced and
    jumped over, any other character is kept, and the scan goes on. *)
Lemma replace_from_skip old new t s :
  replace_from (String.length t) old new (t +:+ s) = replace_from 0 old new s.
Proof.
  induction t as [|c t IH]; [reflexivity |].
  change (String c t +:+ s) with (String c (t +:+ s)). exact IH.
Qed.

Lemma prefix_append old s : String.prefix old (old +:+ s) = true.
Proof.
  induction old as [|c old IH]; [now destruct s |].
  change (String c old +:+ s) with (String c (old +:+ s)).
  cbn. destruct (ascii_dec c c); [exact IH | congruence].
Qed.

Lemma replace_match c old new s :
  replace (String c old +:+ s) (String c old) new = new +:+ replace s (String c old) new.
Proof.
  unfold replace.
  change (String c old +:+ s) with (String c (old +:+ s)).
  cbn [replace_from].
  change (String c (old +:+ s)) with (String c old +:+ s).
  rewrite prefix_append. cbn [String.length].
  replace (S (String.length old) - 1) with (String.length old) by lia.
  now rewrite replace_from_skip.
Qed.

Lemma replace_keep c c' old new s :
  String.prefix (String c' old) (String c s) = false ->
  replace (String c s) (String c' old) new = String c (replace s (String c' old) new).
Proof. intros Hno. unfold replace. cbn [replace_from]. now rewrite Hno. Qed.

Lemma eq_str_false (v : pyval) (lit : string) : v <> PStr lit -> eq_str v lit = false.
Proof.
  destruct v; simpl; try reflexivity.
  intros Hne. apply String.eqb_neq. congruence.
Qed.

(** *** The effects a computation adds to the trace *)

Lemma emits_ret {A} P (a : A) : emits P (ret a).
Proof. intros w. exists []. simpl. rewrite app_nil_r. auto. Qed.

Lemma emits_raise {A} P e : emits P (@raise A e).
Proof. intros w. exists []. simpl. rewrite app_nil_r. auto. Qed.

Lemma emits_unanswered {A} P : emits P (@unanswered A).
Proof. intros w. exists []. simpl. rewrite app_nil_r. auto. Qed.

Lemma emits_log P e : P e -> emits P (log e).
Proof. intros He w. exists [e]. simpl. auto. Qed.

Lemma emits_bind {A B} P (m : M A) (k : A -> M B) :
  emits P m -> (forall a, emits P (k a)) -> emits P (bind m k).
Proof.
  intros Hm Hk w. unfold bind.
  destruct (Hm w) as (new & Hnew & HP).
  destruct (m w) as [[a | e |] w']; simpl in *.
  - destruct (Hk a w') as (new' & Hnew' & HP').
    exists (new ++ new')%list. split.
    + rewrite Hnew', Hnew. now rewrite app_assoc.
    + apply Forall_app; auto.
  - eauto.
  - eauto.
Qed.

Lemma emits_bind_ret {A B} P (a : A) (k : A -> M B) :
  emits P (k a) -> emits P (bind (ret a) k).
Proof. intros H w. exact (H w). Qed.

Lemma emits_getitem P d k : emits P (getitem d k).
Proof. unfold getitem. destruct (dict_lookup d k); [apply emits_ret | apply emits_raise]. Qed.

Lemma emits_subscript P v k : emits P (subscript v k).
Proof. destruct v; simpl; try apply emits_raise. apply emits_getitem. Qed.

Lemma emits_tuple_index P row i : emits P (tuple_index row i).
Proof. unfold tuple_index. destruct (nth_error row i); [apply emits_ret | apply emits_raise]. Qed.

Lemma emits_fresh_uuid P : emits P (fresh_uuid uuid4).
Proof. intros w. exists []. simpl. rewrite app_nil_r. auto. Qed.

Lemma emits_str_format P template args : emits P (str_format repr template args).
Proof. unfold str_format. destruct (format _ _); [apply emits_ret | apply emits_raise]. Qed.

Lemma emits_connect P uri flags vfs :
  P (Connection uri flags vfs) -> emits P (connect connection_error uri flags vfs).
Proof.
  intros HP. unfold connect. apply emits_bind; [now apply emits_log |].
  intros _. destruct (connection_error uri flags vfs); [apply emits_raise | apply emits_ret].
Qed.

Lemma emits_for_rows {A} P rows (body : list pyval -> A -> M A) acc :
  (forall row acc', emits P (body row acc')) -> emits P (for_rows rows body acc).
Proof.
  intros Hbody. revert acc.
  induction rows as [|row rest IH]; intros acc; simpl.
  - apply emits_ret.
  - apply emits_bind; [apply Hbody | apply IH].
Qed.

Lemma emits_for_cursor {A} P uri sql (body : list pyval -> A -> M A) acc :
  P (Execute uri sql) -> (forall row acc', emits P (body row acc')) ->
  emits P (for_cursor cursor_rows uri sql body acc).
Proof.
  intros HP Hbody. unfold for_cursor.
  apply emits_bind; [now apply emits_log | intros _].
  apply emits_bind; [now apply emits_for_rows | intros acc'].
  destruct (snd (cursor_rows uri sql)); [apply emits_raise | apply emits_ret].
Qed.

Lemma emits_list_loop P answers params acc :
  (forall p, P (ListObjectsV2 p)) ->
  emits P (_list_sqlite_objects_loop TARGET_PREFIX answers params acc).
Proof.
  intros HP. revert params acc.
  induction answers as [|response later IH]; intros params acc; simpl.
  - apply emits_bind; [now apply emits_log | intros _; apply emits_unanswered].
  - apply emits_bind; [now apply emits_log | intros _].
    destruct (NextContinuationToken response); [apply IH | apply emits_ret].
Qed.

Lemma emits_from_arrays P columns schema :
  emits P (from_arrays from_arrays_error columns schema).
Proof.
  unfold from_arrays.
  destruct (from_arrays_error columns schema); [apply emits_raise | apply emits_ret].
Qed.

Lemma emits_append_record P row records : emits P (append_record row records).
Proof.
  unfold append_record.
  repeat (apply emits_bind; [apply emits_tuple_index | intros ?]).
  apply emits_ret.
Qed.

(** Whatever the event, the handler prints, lists objects, and in the
    ReadRecordsRequest branch opens one read-only connection on the
    sample database and runs one SELECT; nothing else leaves the process. *)
Lemma lambda_handler_emits P event context :
  (forall args, P (Print args)) ->
  (forall p, P (ListObjectsV2 p)) ->
  P NewS3VFS ->
  P (Connection records_uri (Z.lor SQLITE_OPEN_READONLY SQLITE_OPEN_URI) vfsname) ->
  P (Execute records_uri "SELECT * FROM records") ->
  emits P (lambda_handler event context).
Proof.
  intros Hprint Hlist Hvfs Hconn Hexec.
  unfold Glue.lambda_handler.
  apply emits_bind; [now apply emits_log | intros _].
  apply emits_bind; [apply emits_getitem | intros request_type].
  repeat match goal with
         | |- emits _ (if ?b then _ else _) => destruct b
         end.
  - unfold Glue.ListSchemasRequest_execute.
    apply emits_bind; [apply emits_getitem | intros ?].
    apply emits_bind; [now apply emits_list_loop | intros ?]. apply emits_ret.
  - unfold Glue.ListTablesRequest_execute.
    apply emits_bind; [apply emits_str_format | intros ?].
    apply emits_bind; [apply emits_getitem | intros ?].
    apply emits_bind; [apply emits_raise | intros ?]. apply emits_ret.
  - repeat first [ apply emits_ret
                 | apply emits_bind;
                   [ first [ apply emits_getitem | apply emits_subscript
                           | now apply emits_log ] | intros ? ] ].
  - repeat first [ apply emits_ret
                 | apply emits_bind; [ apply emits_getitem | intros ? ] ].
  - repeat first [ apply emits_ret
                 | apply emits_bind;
                   [ first [ apply emits_getitem | apply emits_subscript
                           | apply emits_fresh_uuid ] | intros ? ] ].
  - repeat first [ apply emits_ret
                 | apply emits_bind; [ apply emits_getitem | intros ? ] ].
  - apply emits_bind; [now apply emits_log | intros _].
    unfold str_format.
    change (map (py_str repr) [PStr S3_PREFIX; PStr S3_BUCKET]) with [S3_PREFIX; S3_BUCKET].
    rewrite format_records_uri.
    apply emits_bind_ret.
    apply emits_bind; [now apply emits_connect | intros _].
    apply emits_bind; [apply emits_for_cursor; [assumption | apply emits_append_record] |].
    intros records.
    repeat first [ apply emits_ret
                 | apply emits_bind;
                   [ first [ apply emits_getitem | apply emits_fresh_uuid
                           | apply emits_from_arrays ] | intros ? ] ].
  - apply emits_ret.
Qed.

Lemma fetch_table_list_emits P sqlite_path :
  (forall args, P (Print args)) ->
  P (Connection sqlite_path (Z.lor SQLITE_OPEN_READONLY SQLITE_OPEN_URI) vfsname) ->
  P (Execute sqlite_path "SELECT name FROM sqlite_master WHERE type='table' ORDER BY name;") ->
  emits P (_fetch_table_list sqlite_path).
Proof.
  intros Hprint Hconn Hexec. unfold Glue._fetch_table_list.
  apply emits_bind; [now apply emits_connect | intros _].
  apply emits_bind; [| intros _; apply emits_ret].
  apply emits_for_cursor; [assumption |].
  intros row tables.
  apply emits_bind; [apply emits_tuple_index | intros name].
  apply emits_bind; [now apply emits_log | intros _].
  apply emits_bind; [apply emits_raise | intros ?].
  apply emits_bind; [apply emits_tuple_index | intros ?]. apply emits_ret.
Qed.

Lemma sqlite_vfs_path_returns event w :
  sqlite_vfs_path event w
  = (Returned (vfs_uri S3_PREFIX (py_str repr (dict_get event "schemaName")) S3_BUCKET), w).
Proof.
  unfold Glue.sqlite_vfs_path, str_format.
  change (map (py_str repr) [PStr S3_PREFIX; dict_get event "schemaName"; PStr S3_BUCKET])
    with [S3_PREFIX; py_str repr (dict_get event "schemaName"); S3_BUCKET].
  now rewrite format_vfs_path.
Qed.

Lemma read_only_flags :
  let flags := Z.lor SQLITE_OPEN_READONLY SQLITE_OPEN_URI in
  flags = Z.lor SQLITE_OPEN_READONLY SQLITE_OPEN_URI
  /\ Z.land flags SQLITE_OPEN_READWRITE = 0%Z
  /\ Z.land flags SQLITE_OPEN_CREATE = 0%Z.
Proof. repeat split. Qed.

(** C3. Whatever the event, whatever the world and whatever the
    collaborators answer, every connection [lambda_handler] opens carries
    the flags [SQLITE_OPEN_READONLY | SQLITE_OPEN_URI] (so neither the
    read-write nor the create bit) and every statement it executes is a
    SELECT; the same holds of [_fetch_table_list] for any path. *)
Theorem glue_is_read_only :
  (forall event context, emits read_only_effect (lambda_handler event context))
  /\ (forall sqlite_path, emits read_only_effect (_fetch_table_list sqlite_path)).
Proof.
  split.
  - intros event context.
    apply lambda_handler_emits; simpl; auto using read_only_flags.
  - intros sqlite_path.
    apply fetch_table_list_emits; simpl; auto using read_only_flags.
Qed.

(** C4. The path [ListTablesRequest.execute] builds is
    [file:/{prefix}/{schema}.sqlite?bucket={bucket}] with the event's
    [schemaName] as the schema, and every connection [lambda_handler] opens
    is on that same shape of URI with [sample_data] as the schema: the key
    is the path, the bucket the [bucket] query parameter. *)
Theorem connection_uri_shape :
  (forall event w,
     sqlite_vfs_path event w
     = (Returned (vfs_uri S3_PREFIX (py_str repr (dict_get event "schemaName")) S3_BUCKET), w))
  /\ (forall event context, emits (connects_to records_uri) (lambda_handler event context)).
Proof.
  split.
  - apply sqlite_vfs_path_returns.
  - intros event context. apply lambda_handler_emits; simpl; auto.
Qed.

(** *** Dispatch *)

(** C10. [lambda_handler] prints the event and then dispatches on
    [event['@type']] alone: a value that is none of the seven handled
    request types gives [None], a missing key raises [KeyError], and the two
    request classes are entered on their type names. *)
Theorem lambda_handler_dispatch (event : pydict) (context : pyval) (w : world) :
  (forall v, dict_lookup event "@type" = Some v ->
             (forall t, In t handled_types -> v <> PStr t) ->
             lambda_handler event context w
             = (Returned PNone, after w [Print [PDict event]]))
  /\ (dict_lookup event "@type" = None ->
      lambda_handler event context w
      = (Raised (KeyError "@type"), after w [Print [PDict event]]))
  /\ (dict_lookup event "@type" = Some (PStr "ListSchemasRequest") ->
      lambda_handler event context w
      = ListSchemasRequest_execute event (after w [Print [PDict event]]))
  /\ (dict_lookup event "@type" = Some (PStr "ListTablesRequest") ->
      lambda_handler event context w
      = ListTablesRequest_execute event (after w [Print [PDict event]])).
Proof.
  unfold Glue.lambda_handler, bind, log, getitem, after.
  repeat split.
  - intros v Hv Hno. rewrite Hv. unfold ret at 1.
    rewrite !eq_str_false; [reflexivity | ..]; apply Hno; simpl; tauto.
  - intros Hv. now rewrite Hv.
  - intros Hv. now rewrite Hv.
  - intros Hv. now rewrite Hv.
Qed.

(** *** ListTablesRequest *)

(** C9, as the code has it. [ListTablesRequest.execute] never returns and
    leaves the world as it found it, so no connection is opened and
    [_fetch_table_list] is not run: with a [catalogName] in the event the
    load of the unassigned name [tables] raises [NameError]; without one the
    subscript [event['catalogName']], evaluated first, raises [KeyError]. *)
Theorem list_tables_never_returns (event : pydict) (w : world) :
  (forall c, dict_lookup event "catalogName" = Some c ->
             ListTablesRequest_execute event w = (Raised (NameError "tables"), w))
  /\ (dict_lookup event "catalogName" = None ->
      ListTablesRequest_execute event w = (Raised (KeyError "catalogName"), w)).
Proof.
  pose proof (sqlite_vfs_path_returns event w) as Hpath.
  unfold Glue.ListTablesRequest_execute, bind. rewrite Hpath.
  unfold getitem. split.
  - intros c Hc. now rewrite Hc.
  - intros Hc. now rewrite Hc.
Qed.

(** *** ListSchemasRequest *)

Lemma list_loop_pages pages last extra token acc w :
  Forall has_token pages ->
  NextContinuationToken last = None ->
  _list_sqlite_objects_loop TARGET_PREFIX (pages ++ last :: extra)
    (listing_request S3_PREFIX S3_BUCKET token) acc w
  = (Returned (acc ++ map (sqlite_basename TARGET_PREFIX) (listed_objects (pages ++ [last]))),
     after w (map ListObjectsV2
                (listing_request S3_PREFIX S3_BUCKET token
                 :: map (fun r => listing_request S3_PREFIX S3_BUCKET (NextContinuationToken r))
                      pages))).
Proof.
  intros Hpages Hlast. revert token acc w.
  induction Hpages as [|page pages [tok Htok] _ IH]; intros token acc w.
  - cbn [app _list_sqlite_objects_loop]. unfold bind, log. rewrite Hlast.
    unfold listed_objects. cbn. now rewrite app_nil_r.
  - cbn [app _list_sqlite_objects_loop]. unfold bind at 1, log at 1. rewrite Htok.
    cbn [Bucket Prefix Delimiter listing_request].
    change {| Bucket := S3_BUCKET; Prefix := S3_PREFIX +:+ "/"; Delimiter := "/";
              ContinuationToken := Some tok |}
      with (listing_request S3_PREFIX S3_BUCKET (Some tok)).
    rewrite IH. unfold after, listed_objects. cbn [trace uuids_drawn map flat_map app].
    rewrite Htok, map_app, <- !app_assoc. reflexivity.
Qed.

(** C8. With a [catalogName] in the event, and S3 answering a run of pages
    that carry a continuation token followed by one that carries none,
    [ListSchemasRequest.execute] returns the ListSchemasResponse that echoes
    the catalog name and lists, for every object of every page in listing
    order, its key with [{prefix}/] and [.sqlite] replaced away; every
    request it sent had the prefix [{prefix}/] and the delimiter [/], the
    first without a token and each later one with the token of the page
    before. *)
Theorem list_schemas_response (event : pydict) (c : pyval)
    (pages : list s3_response) (last : s3_response) (extra : list s3_response)
    (w : world) :
  dict_lookup event "catalogName" = Some c ->
  s3_answers = (pages ++ last :: extra)%list ->
  Forall has_token pages ->
  NextContinuationToken last = None ->
  ListSchemasRequest_execute event w
  = (Returned
       (PDict [("@type", PStr "ListSchemasResponse");
               ("catalogName", c);
               ("schemas",
                PList (map PStr (map (sqlite_basename TARGET_PREFIX)
                                   (listed_objects (pages ++ [last])))));
               ("requestType", PStr "LIST_SCHEMAS")]),
     after w (map ListObjectsV2
                (listing_request S3_PREFIX S3_BUCKET None
                 :: map (fun r => listing_request S3_PREFIX S3_BUCKET (NextContinuationToken r))
                      pages))).
Proof.
  intros Hc Hs3 Hpages Hlast.
  unfold Glue.ListSchemasRequest_execute, Glue._list_sqlite_objects, bind, getitem.
  rewrite Hc, Hs3. unfold ret at 1.
  change {| Bucket := S3_BUCKET; Prefix := S3_PREFIX +:+ "/"; Delimiter := "/";
            ContinuationToken := None |}
    with (listing_request S3_PREFIX S3_BUCKET None).
  now rewrite (list_loop_pages pages last extra None [] w Hpages Hlast).
Qed.

(** *** ReadRecordsRequest *)

Lemma for_rows_append_record rows records w :
  Forall (fun row => length row = 4) rows ->
  for_rows rows append_record records w
  = (Returned {| year := year records ++ column 0 rows;
                 month := month records ++ column 1 rows;
                 day := day records ++ column 2 rows;
                 someval := someval records ++ column 3 rows |}, w).
Proof.
  intros Hrows. revert records.
  induction Hrows as [|row rows Hrow _ IH]; intros [ys ms ds vs].
  - cbn. now rewrite !app_nil_r.
  - destruct row as [|v0 [|v1 [|v2 [|v3 [|? ?]]]]]; try discriminate Hrow.
    cbn [for_rows]. unfold bind at 1. cbn [append_record tuple_index nth_error bind ret].
    unfold bind, ret. cbn [year month day someval].
    rewrite IH. cbn [year month day someval column map nth].
    now rewrite <- !app_assoc.
Qed.

Lemma zip4_columns rows :
  Forall (fun row => length row = 4) rows ->
  zip4 (column 0 rows) (column 1 rows) (column 2 rows) (column 3 rows) = rows.
Proof.
  induction 1 as [|row rows Hrow _ IH]; [reflexivity |].
  destruct row as [|v0 [|v1 [|v2 [|v3 [|? ?]]]]]; try discriminate Hrow.
  cbn. now f_equal.
Qed.

(** C5. For a ReadRecordsRequest event that carries a [catalogName], when
    the connection opens, the cursor yields four-column rows to its end and
    pyarrow takes their four columns under the schema, [lambda_handler]
    opens [sample_data.sqlite] read-only through the S3
    VFS, executes [SELECT * FROM records] and returns the
    ReadRecordsResponse that echoes the catalog name and whose block is the
    record batch of the four columns of those rows under the schema (year:
    int64, month: int64, day: int64, someval: string); the rows of that
    batch are the rows of the query, in query order. *)
Theorem read_records_response (event : pydict) (context c : pyval)
    (rows : list (list pyval)) (w : world) :
  let flags := Z.lor SQLITE_OPEN_READONLY SQLITE_OPEN_URI in
  let sql := "SELECT * FROM records" in
  dict_lookup event "@type" = Some (PStr "ReadRecordsRequest") ->
  dict_lookup event "catalogName" = Some c ->
  connection_error records_uri flags vfsname = None ->
  cursor_rows records_uri sql = (rows, None) ->
  Forall (fun row => length row = 4) rows ->
  from_arrays_error [column 0 rows; column 1 rows; column 2 rows; column 3 rows] faux_schema
  = None ->
  lambda_handler event context w
  = (Returned
       (PDict [("@type", PStr "ReadRecordsResponse");
               ("catalogName", c);
               ("records",
                PDict [("aId", PStr (uuid4 (uuids_drawn w)));
                       ("schema", PStr (arrow_b64 (pa_schema faux_schema)));
                       ("records",
                        PStr (arrow_b64
                                (pa_RecordBatch_from_arrays
                                   [column 0 rows; column 1 rows; column 2 rows; column 3 rows]
                                   (Some faux_schema))))]);
               ("requestType", PStr "READ_RECORDS")]),
     {| trace := trace w ++ [Print [PDict event]; NewS3VFS;
                             Connection records_uri flags vfsname;
                             Execute records_uri sql];
        uuids_drawn := S (uuids_drawn w) |})
  /\ zip4 (column 0 rows) (column 1 rows) (column 2 rows) (column 3 rows) = rows
  /\ faux_schema = [("year", pa_int64); ("month", pa_int64); ("day", pa_int64);
                    ("someval", pa_string)].
Proof.
  intros flags sql Htype Hc Hconn Hrows Hshape Harrow.
  split; [| split; [now apply zip4_columns | reflexivity]].
  unfold Glue.lambda_handler, bind at 1, log at 1, bind at 1, getitem at 1.
  rewrite Htype. unfold ret at 1. cbn [eq_str String.eqb Ascii.eqb Bool.eqb].
  unfold bind at 1, log at 1, bind at 1, str_format.
  change (map (py_str repr) [PStr S3_PREFIX; PStr S3_BUCKET]) with [S3_PREFIX; S3_BUCKET].
  rewrite format_records_uri. unfold ret at 1.
  unfold bind at 1, connect, bind at 1, log at 1. fold flags. rewrite Hconn.
  unfold ret at 1. unfold bind at 1, for_cursor, bind at 1, log at 1, bind at 1.
  fold sql. rewrite Hrows. cbn [fst snd trace uuids_drawn].
  rewrite (for_rows_append_record _ _ _ Hshape). cbn [year month day someval app].
  unfold ret at 1, bind at 1, from_arrays. cbn [year month day someval]. rewrite Harrow.
  unfold ret at 1, bind at 1, getitem. rewrite Hc. unfold ret at 1, bind, fresh_uuid, ret.
  cbn [trace uuids_drawn]. rewrite <- !app_assoc. reflexivity.
Qed.

End GlueFacts.

(** ** Facts about the storage core *)

Section CoreFacts.
Import Core.
Local Close Scope string_scope.
Local Open Scope nat_scope.

Context (store : gmap object_ref bytes)
        (block_size capacity max_attempts : nat)
        (parse_uri : string -> option object_ref).

Local Abbreviation fetch := (Core.fetch store max_attempts).
Local Abbreviation probe_size := (Core.probe_size store max_attempts).
Local Abbreviation get_block := (Core.get_block store block_size capacity max_attempts).
Local Abbreviation get_blocks := (Core.get_blocks store block_size capacity max_attempts).
Local Abbreviation cache_read := (Core.cache_read store block_size capacity max_attempts).
Local Abbreviation read_at := (Core.read_at store block_size capacity max_attempts).
Local Abbreviation open := (Core.open store max_attempts parse_uri).
Local Abbreviation opened := (Core.opened store max_attempts parse_uri).
Local Abbreviation coherent := (Core.coherent store block_size).
Local Abbreviation block_of := (Core.block_of block_size).

(** *** Range Fetcher *)

Lemma range_get_not_transient ref offset len :
  range_get store ref offset len <> Err Transient.
Proof.
  unfold range_get. destruct (store !! ref); [| discriminate].
  destruct (_ <=? _); discriminate.
Qed.

Lemma head_size_not_transient ref : head_size store ref <> Err Transient.
Proof. unfold head_size. destruct (store !! ref); discriminate. Qed.

(** The retry loop, in closed form: with fewer failures ahead than the
    budget it makes one attempt per failure and one more, which is
    answered; otherwise it spends the whole budget and gives up. *)
Lemma with_retry_spec {A} budget (request : result A) st :
  request <> Err Transient ->
  with_retry budget request st
  = if leading_faults (faults st) <? budget
    then (request,
          {| faults := drop (S (leading_faults (faults st))) (faults st);
             attempts := attempts st + S (leading_faults (faults st));
             cache := cache st |})
    else (Err Transient,
          {| faults := drop budget (faults st);
             attempts := attempts st + budget;
             cache := cache st |}).
Proof.
  intros Hreq. revert st.
  induction budget as [|budget IH]; intros [net n c].
  - cbn. now rewrite Nat.add_0_r.
  - destruct net as [|[|] later];
      cbn [with_retry attempt faults attempts cache tail].
    + cbn. destruct request as [a | []]; try congruence;
        (do 2 f_equal; lia).
    + rewrite IH. cbn [faults attempts cache leading_faults tail drop].
      change (S (leading_faults later) <? S budget)
        with (leading_faults later <? budget).
      destruct (_ <? _); do 2 f_equal; lia.
    + cbn. destruct request as [a | []]; try congruence;
        (do 2 f_equal; lia).
Qed.

Lemma absorbed_drop budget network k :
  absorbed budget network -> absorbed budget (drop k network).
Proof. intros H j. rewrite drop_drop. apply H. Qed.

Lemma absorbed_now budget network :
  absorbed budget network -> (leading_faults network <? budget) = true.
Proof. intros H. apply Nat.ltb_lt. exact (H 0). Qed.

(** *** Page Cache *)

Lemma coherent_lookup c ref i blk :
  coherent c -> cache_lookup (ref, i) c = Some blk ->
  exists data, store !! ref = Some data /\ blk = block_of data i.
Proof.
  induction 1 as [|[[ref' i'] blk'] c (data & Hd & _ & Hb) _ IH]; [discriminate |].
  cbn [cache_lookup]. destruct (decide _) as [Heq | _]; [| exact IH].
  intros [= <-]. injection Heq as -> ->. eauto.
Qed.

Lemma coherent_lookup_inside c ref i blk data :
  coherent c -> cache_lookup (ref, i) c = Some blk -> store !! ref = Some data ->
  i * block_size < length data.
Proof.
  induction 1 as [|[[ref' i'] blk'] c (data' & Hd & Hin & _) _ IH]; [discriminate |].
  cbn [cache_lookup]. destruct (decide _) as [Heq | _]; [| exact IH].
  intros _ Hs. injection Heq as -> ->. cbn in Hd, Hin. congruence.
Qed.

Lemma coherent_remove c k : coherent c -> coherent (cache_remove k c).
Proof.
  induction 1 as [|[k' blk] c He _ IH]; [constructor |].
  cbn [cache_remove]. destruct (decide _); [exact IH | now constructor].
Qed.

Lemma coherent_keep_within c room : coherent c -> coherent (keep_within room c).
Proof.
  intros H. revert room.
  induction H as [|[k blk] c He _ IH]; intros room; [constructor |].
  cbn [keep_within]. destruct (_ <=? _); [| constructor].
  constructor; [exact He | apply IH].
Qed.

Lemma coherent_cons c ref i data :
  store !! ref = Some data -> i * block_size < length data -> coherent c ->
  coherent ((ref, i, block_of data i) :: c).
Proof. intros Hd Hi Hc. constructor; [| exact Hc]. cbn. eauto. Qed.

Lemma coherent_insert c ref i data :
  store !! ref = Some data -> i * block_size < length data -> coherent c ->
  coherent (cache_insert capacity (ref, i) (block_of data i) c).
Proof.
  intros Hd Hi Hc. unfold cache_insert. destruct (_ <? _); [exact Hc |].
  apply coherent_cons; auto using coherent_keep_within, coherent_remove.
Qed.

(** A block that starts inside its object is served whole and right,
    from the cache or by one fetch, unless the fetch runs out of attempts;
    either way the cache stays coherent and the network only moves on. *)
Lemma get_block_spec ref i data st :
  coherent (cache st) -> store !! ref = Some data -> i * block_size < length data ->
  exists st',
    coherent (cache st') /\ (exists k, faults st' = drop k (faults st))
    /\ (get_block ref i st = (Ok (block_of data i), st')
        \/ (get_block ref i st = (Err Transient, st')
            /\ max_attempts <= leading_faults (faults st))).
Proof.
  intros Hc Hd Hi. unfold Core.get_block.
  destruct (cache_lookup (ref, i) (cache st)) as [blk|] eqn:Hhit.
  - destruct (coherent_lookup _ _ _ _ Hc Hhit) as (data' & Hd' & ->).
    assert (data' = data) as -> by congruence.
    eexists. split; [| split]; [ | | left; reflexivity ].
    + cbn. apply coherent_cons; auto using coherent_remove.
    + exists 0. reflexivity.
  - unfold Core.fetch. rewrite with_retry_spec by apply range_get_not_transient.
    destruct (_ <? _) eqn:Hbudget.
    + assert (range_get store ref (i * block_size) block_size = Ok (block_of data i)) as ->.
      { unfold range_get. rewrite Hd.
        destruct (Nat.leb_spec (length data) (i * block_size)); [lia | reflexivity]. }
      eexists. split; [| split]; [ | | left; reflexivity ].
      * cbn. now apply coherent_insert.
      * eexists. reflexivity.
    + eexists. split; [| split]; [ | | right; split; [reflexivity |] ].
      * exact Hc.
      * eexists. reflexivity.
      * apply Nat.ltb_ge in Hbudget. exact Hbudget.
Qed.

Lemma not_absorbed_now network :
  max_attempts <= leading_faults network -> ~ absorbed max_attempts network.
Proof. intros Hle H. specialize (H 0). rewrite drop_0 in H. lia. Qed.

Lemma not_absorbed_later network k :
  ~ absorbed max_attempts (drop k network) -> ~ absorbed max_attempts network.
Proof. intros Hno H. apply Hno. now apply absorbed_drop. Qed.

(** Consecutive blocks join into the stretch of the object they cover. *)
Lemma get_blocks_spec ref data count : forall first st,
  coherent (cache st) -> store !! ref = Some data ->
  (forall j, j < count -> (first + j) * block_size < length data) ->
  exists st',
    coherent (cache st') /\ (exists k, faults st' = drop k (faults st))
    /\ (get_blocks ref first count st
        = (Ok (take (count * block_size) (drop (first * block_size) data)), st')
        \/ (get_blocks ref first count st = (Err Transient, st')
            /\ ~ absorbed max_attempts (faults st))).
Proof.
  induction count as [|count IH]; intros first st Hc Hd Hin.
  - exists st. split; [exact Hc |]. split; [exists 0; reflexivity |]. left. reflexivity.
  - cbn [Core.get_blocks].
    destruct (get_block_spec ref first data st Hc Hd) as (st1 & Hc1 & [k1 Hk1] & Hblk).
    { specialize (Hin 0). rewrite Nat.add_0_r in Hin. apply Hin. lia. }
    destruct Hblk as [-> | [-> Hfail]].
    + destruct (IH (S first) st1 Hc1 Hd) as (st2 & Hc2 & [k2 Hk2] & Hmore).
      { intros j Hj. specialize (Hin (S j)).
        replace (S first + j) with (first + S j) by lia. apply Hin. lia. }
      exists st2. split; [exact Hc2 |]. split.
      { exists (k1 + k2). now rewrite Hk2, Hk1, drop_drop. }
      destruct Hmore as [-> | [-> Hfail]].
      * left. f_equal. f_equal. unfold Core.block_of.
        replace (S first * block_size) with (first * block_size + block_size) by lia.
        rewrite <- drop_drop. apply take_take_drop.
      * right. split; [reflexivity |]. rewrite Hk1 in Hfail.
        now apply not_absorbed_later in Hfail.
    + exists st1. split; [exact Hc1 |]. split; [now exists k1 |].
      right. split; [reflexivity |]. now apply not_absorbed_now.
Qed.

(** The slice cut from the covering blocks is the slice of the object. *)
Lemma slice_of_span (data : bytes) first count offset len :
  first * block_size <= offset ->
  offset + len <= first * block_size + count * block_size ->
  take len (drop (offset - first * block_size)
              (take (count * block_size) (drop (first * block_size) data)))
  = take len (drop offset data).
Proof.
  intros Hlo Hhi.
  replace (count * block_size)
    with ((offset - first * block_size)
          + (count * block_size - (offset - first * block_size))) at 1 by lia.
  rewrite <- take_drop_commute, take_take, drop_drop.
  f_equal; [lia | f_equal; lia].
Qed.

Lemma cache_read_spec ref data offset len st :
  0 < block_size ->
  coherent (cache st) -> store !! ref = Some data -> offset + len <= length data ->
  exists st',
    coherent (cache st') /\ (exists k, faults st' = drop k (faults st))
    /\ (cache_read ref offset len st = (Ok (take len (drop offset data)), st')
        \/ (cache_read ref offset len st = (Err Transient, st')
            /\ ~ absorbed max_attempts (faults st))).
Proof.
  intros Hbs Hc Hd Hin. unfold Core.cache_read.
  destruct (Nat.eqb_spec len 0) as [-> | Hlen].
  - exists st. split; [exact Hc |]. split; [exists 0; reflexivity |]. now left.
  - set (first := offset / block_size).
    set (last := (offset + len - 1) / block_size).
    assert (first * block_size <= offset) as Hfirst.
    { subst first. rewrite Nat.mul_comm. apply Nat.Div0.mul_div_le. }
    assert (last * block_size <= offset + len - 1) as Hlast.
    { subst last. rewrite Nat.mul_comm. apply Nat.Div0.mul_div_le. }
    assert (offset + len - 1 < last * block_size + block_size) as Hlast'.
    { subst last. pose proof (Nat.mul_succ_div_gt (offset + len - 1) block_size). lia. }
    assert (first <= last) as Horder.
    { subst first last. apply Nat.Div0.div_le_mono. lia. }
    assert (S (last - first) * block_size
            = last * block_size + block_size - first * block_size) as Hcount.
    { rewrite <- (Nat.sub_add first last) at 2 by exact Horder. nia. }
    destruct (get_blocks_spec ref data (S (last - first)) first st Hc Hd)
      as (st' & Hc' & Hk & Hspan).
    { intros j Hj. assert ((first + j) * block_size <= last * block_size) by nia. lia. }
    exists st'. split; [exact Hc' |]. split; [exact Hk |].
    destruct Hspan as [-> | [-> Hfail]]; [left | now right].
    f_equal. f_equal. apply slice_of_span; [exact Hfirst |]. rewrite Hcount.
    assert (first * block_size <= last * block_size) by nia. lia.
Qed.

(** *** Virtual File Handle and Registry *)

Lemma opened_size h :
  opened h -> exists data, store !! href h = Some data /\ hsize h = length data.
Proof.
  intros (uri & st & st' & Hopen). unfold Core.open in Hopen.
  destruct (parse_uri uri) as [ref|]; [| discriminate].
  unfold Core.probe_size in Hopen.
  rewrite with_retry_spec in Hopen by apply head_size_not_transient.
  destruct (_ <? _); [| discriminate].
  unfold head_size in Hopen. destruct (store !! ref) as [data|] eqn:Hd; [| discriminate].
  injection Hopen as <- _. exists data. now split.
Qed.

(** A read through an open handle keeps the cache coherent, and inside
    the object it answers the bytes of the range or, with a fetch out of
    attempts, [Transient]. *)
Lemma read_at_spec h data offset len st :
  0 < block_size -> opened h -> store !! href h = Some data -> coherent (cache st) ->
  exists st',
    coherent (cache st') /\ (exists k, faults st' = drop k (faults st))
    /\ (read_at h offset len st = (Err ShortRead, st') /\ length data < offset + len
        \/ read_at h offset len st = (Ok (take len (drop offset data)), st')
           /\ offset + len <= length data
        \/ read_at h offset len st = (Err Transient, st')
           /\ ~ absorbed max_attempts (faults st)).
Proof.
  intros Hbs Hopen Hd Hc.
  destruct (opened_size h Hopen) as (data' & Hd' & Hsize).
  assert (data' = data) as -> by congruence.
  unfold Core.read_at. rewrite Hsize.
  destruct (Nat.ltb_spec (length data) (offset + len)) as [Hpast | Hin].
  - exists st. split; [exact Hc |]. split; [exists 0; reflexivity |]. left. now split.
  - destruct (cache_read_spec (href h) data offset len st Hbs Hc Hd Hin)
      as (st' & Hc' & Hk & Hres).
    exists st'. split; [exact Hc' |]. split; [exact Hk |].
    destruct Hres as [Hok | Hfail]; [right; left; now split | right; right; exact Hfail].
Qed.

Lemma probe_size_keeps_cache ref st : cache (snd (probe_size ref st)) = cache st.
Proof.
  unfold Core.probe_size. rewrite with_retry_spec by apply head_size_not_transient.
  now destruct (_ <? _).
Qed.

Lemma open_keeps_cache uri st : cache (snd (open uri st)) = cache st.
Proof.
  unfold Core.open. destruct (parse_uri uri) as [ref|]; [| reflexivity].
  pose proof (probe_size_keeps_cache ref st) as Hc.
  destruct (probe_size ref st) as [[n | e] st']; exact Hc.
Qed.

Lemma access_check_keeps_cache uri st :
  cache (snd (Core.access_check store max_attempts parse_uri uri st)) = cache st.
Proof.
  unfold Core.access_check. destruct (parse_uri uri) as [ref|]; [| reflexivity].
  pose proof (probe_size_keeps_cache ref st) as Hc.
  destruct (probe_size ref st) as [[n | e] st']; exact Hc.
Qed.

(** Every state the registry passes through has a coherent cache. *)
Lemma reachable_coherent st :
  0 < block_size ->
  Core.reachable store block_size capacity max_attempts parse_uri st ->
  coherent (cache st).
Proof.
  intros Hbs. induction 1 as [network | uri st answer st' _ IH Hopen
                              | uri st answer st' _ IH Hcheck
                              | h offset len st answer st' _ IH Hh Hread].
  - constructor.
  - pose proof (open_keeps_cache uri st) as Hc. rewrite Hopen in Hc. cbn in Hc.
    now rewrite Hc.
  - pose proof (access_check_keeps_cache uri st) as Hc. rewrite Hcheck in Hc.
    cbn in Hc. now rewrite Hc.
  - destruct (opened_size h Hh) as (data & Hd & _).
    destruct (read_at_spec h data offset len st Hbs Hh Hd IH)
      as (st1 & Hc1 & _ & [[Hrun _] | [[Hrun _] | [Hrun _]]]);
      rewrite Hread in Hrun; now injection Hrun as _ <-.
Qed.

(** C1. Cache transparency. Through an open handle, in any state the
    registry passes through, a read of a range inside the object never
    answers anything but the bytes of that range of the object (the object
    being what a direct range GET of its whole length answers) or, once a
    fetch has used up its attempts, [Transient]; and on a network whose
    failures the retries absorb it answers exactly those bytes, and leaves
    such a network behind. *)
Theorem read_at_transparent (h : handle) (data : bytes) (offset len : nat) (st : state) :
  0 < block_size ->
  opened h ->
  store !! href h = Some data ->
  Core.reachable store block_size capacity max_attempts parse_uri st ->
  offset + len <= length data ->
  (0 < length data -> range_get store (href h) 0 (length data) = Ok data)
  /\ (forall answer st',
        read_at h offset len st = (answer, st') ->
        answer = Ok (take len (drop offset data)) \/ answer = Err Transient)
  /\ (absorbed max_attempts (faults st) ->
      exists st',
        read_at h offset len st = (Ok (take len (drop offset data)), st')
        /\ absorbed max_attempts (faults st')).
Proof.
  intros Hbs Hopen Hd Hreach Hin.
  split.
  { intros Hne. unfold range_get. rewrite Hd.
    destruct (Nat.leb_spec (length data) 0); [lia |].
    now rewrite drop_0, firstn_all. }
  pose proof (reachable_coherent st Hbs Hreach) as Hc.
  destruct (read_at_spec h data offset len st Hbs Hopen Hd Hc)
    as (st1 & _ & [k Hk] & [[_ Hpast] | [[Hok _] | [Hfail Hnet]]]); [lia | |].
  - split.
    + intros answer st' Hrun. rewrite Hrun in Hok. injection Hok as -> _. now left.
    + intros Hnet. exists st1. split; [exact Hok |]. rewrite Hk. now apply absorbed_drop.
  - split.
    + intros answer st' Hrun. rewrite Hrun in Hfail. injection Hfail as -> _. now right.
    + intros Habs. contradiction.
Qed.

(** C6. A handle that [open] returned reports as its size the byte
    length of the object in the store, and a read of [size, size + k) with
    [k > 0], like any read of a range that extends beyond the size, is
    refused with [ShortRead] and touches neither network nor cache. *)
Theorem size_is_true_and_reads_stop_there (uri : string) (st st' : state) (h : handle) :
  open uri st = (Ok h, st') ->
  exists data,
    store !! href h = Some data
    /\ size h = length data
    /\ (forall k st2, 0 < k -> read_at h (size h) k st2 = (Err ShortRead, st2))
    /\ (forall offset len st2,
          size h < offset + len -> read_at h offset len st2 = (Err ShortRead, st2)).
Proof.
  intros Hopen.
  destruct (opened_size h) as (data & Hd & Hsize); [now exists uri, st, st' |].
  exists data. split; [exact Hd |]. split; [exact Hsize |].
  assert (forall offset len st2,
            size h < offset + len -> read_at h offset len st2 = (Err ShortRead, st2)) as Hpast.
  { intros offset len st2 Hlt. unfold Core.read_at, size in *.
    destruct (Nat.ltb_spec (hsize h) (offset + len)); [reflexivity | lia]. }
  split; [| exact Hpast].
  intros k st2 Hk. apply Hpast. lia.
Qed.

(** C7. With a budget of at least four attempts, a
    fetch that meets three transient failures and then an answer gives the
    caller the bytes of the range after exactly four attempts. Whatever the
    budget: an answer, be it bytes, [NotFound] or [RangeUnsatisfiable], is
    never [Transient] and ends the loop one attempt after the failures
    before it, and a run of failures as long as the budget surfaces
    [Transient] after exactly that many attempts. *)
Theorem fetch_retries_transient_only (ref : object_ref) (offset len : nat) :
  4 <= max_attempts ->
  (forall data st later,
     store !! ref = Some data -> offset < length data ->
     faults st = true :: true :: true :: false :: later ->
     fetch ref offset len st
     = (Ok (take len (drop offset data)),
        {| faults := later; attempts := attempts st + 4; cache := cache st |}))
  /\ range_get store ref offset len <> Err Transient
  /\ (forall st,
        leading_faults (faults st) < max_attempts ->
        fetch ref offset len st
        = (range_get store ref offset len,
           {| faults := drop (S (leading_faults (faults st))) (faults st);
              attempts := attempts st + S (leading_faults (faults st));
              cache := cache st |}))
  /\ (forall st,
        max_attempts <= leading_faults (faults st) ->
        fetch ref offset len st
        = (Err Transient,
           {| faults := drop max_attempts (faults st);
              attempts := attempts st + max_attempts;
              cache := cache st |})).
Proof.
  intros Hbudget.
  assert (forall st, fetch ref offset len st = _) as Hspec
    by (intros st; unfold Core.fetch;
        apply with_retry_spec, range_get_not_transient).
  split; [| split; [apply range_get_not_transient | split]].
  - intros data st later Hd Hin Hnet. rewrite Hspec, Hnet.
    cbn [leading_faults drop].
    destruct (Nat.ltb_spec 3 max_attempts); [| lia].
    unfold range_get. rewrite Hd.
    destruct (Nat.leb_spec (length data) offset); [lia | reflexivity].
  - intros st Hlt. rewrite Hspec.
    destruct (Nat.ltb_spec (leading_faults (faults st)) max_attempts); [reflexivity | lia].
  - intros st Hge. rewrite Hspec.
    destruct (Nat.ltb_spec (leading_faults (faults st)) max_attempts); [lia | reflexivity].
Qed.

End CoreFacts.

(** C2. Whatever the handle, the arguments and the state, [write_at],
    [truncate] and [delete] answer [Unsupported] and hand back the state
    they were given. *)
Theorem write_path_is_unsupported (h : Core.handle) (offset new_size : nat)
    (data : Core.bytes) (uri : string) (st : Core.state) :
  Core.write_at h offset data st = (Core.Err Core.Unsupported, st)
  /\ Core.truncate h new_size st = (Core.Err Core.Unsupported, st)
  /\ Core.delete uri st = (Core.Err Core.Unsupported, st).
Proof. repeat split. Qed.

(** ** The theorems at work on the demo deployment *)

Section Demo.
Import Py Glue.
Local Open Scope list_scope.

Lemma lambda_handler_dispatch_witness :
  demo_handler [("@type", PStr "PutRecordsRequest")] PNone world0
  = (Returned PNone, after world0 [Print [PDict [("@type", PStr "PutRecordsRequest")]]])
  /\ demo_handler [("catalogName", PStr "c")] PNone world0
     = (Raised (KeyError "@type"), after world0 [Print [PDict [("catalogName", PStr "c")]]]).
Proof.
  unfold demo_handler. split.
  - eapply (proj1 (lambda_handler_dispatch _ _ _ _ _ _ _ _ _ _ _ _ _)).
    + reflexivity.
    + intros t Ht. cbn in Ht.
      repeat (destruct Ht as [<- | Ht]; [discriminate |]). destruct Ht.
  - apply (proj1 (proj2 (lambda_handler_dispatch _ _ _ _ _ _ _ _ _ _ _ _ _))).
    reflexivity.
Defined.

Lemma list_tables_never_returns_witness :
  ListTablesRequest_execute "bucket" "data/" (fun _ => "repr")
    [("@type", PStr "ListTablesRequest"); ("catalogName", PStr "c");
     ("schemaName", PStr "sales")] world0
  = (Raised (NameError "tables"), world0)
  /\ ListTablesRequest_execute "bucket" "data/" (fun _ => "repr")
       [("@type", PStr "ListTablesRequest"); ("schemaName", PStr "sales")] world0
     = (Raised (KeyError "catalogName"), world0).
Proof.
  split.
  - apply (proj1 (list_tables_never_returns _ _ _ _ _) (PStr "c")). reflexivity.
  - apply (proj2 (list_tables_never_returns _ _ _ _ _)). reflexivity.
Defined.

(** C9, as stated, fails: an event without [catalogName] gets [KeyError],
    not [NameError]. *)
Lemma list_tables_key_error_first :
  ListTablesRequest_execute "bucket" "data/" (fun _ => "repr")
    [("@type", PStr "ListTablesRequest"); ("schemaName", PStr "sales")] world0
  = (Raised (KeyError "catalogName"), world0)
  /\ fst (ListTablesRequest_execute "bucket" "data/" (fun _ => "repr")
            [("@type", PStr "ListTablesRequest"); ("schemaName", PStr "sales")] world0)
     <> Raised (NameError "tables").
Proof. split; [reflexivity | discriminate]. Qed.

Lemma list_schemas_response_witness :
  ListSchemasRequest_execute "bucket" "data/" demo_pages [("catalogName", PStr "c")] world0
  = (Returned (PDict [("@type", PStr "ListSchemasResponse");
                      ("catalogName", PStr "c");
                      ("schemas", PList [PStr "sales"; PStr "hr"; PStr "ops"]);
                      ("requestType", PStr "LIST_SCHEMAS")]),
     after world0 [ListObjectsV2 (listing_request "data" "bucket" None);
                   ListObjectsV2 (listing_request "data" "bucket" (Some "t1"))]).
Proof.
  apply (list_schemas_response "bucket" "data/" demo_pages [("catalogName", PStr "c")]
           (PStr "c") (take 1 demo_pages) (List.last demo_pages (Build_s3_response None None)) []).
  - reflexivity.
  - reflexivity.
  - repeat constructor. now exists "t1".
  - reflexivity.
Defined.

Lemma read_records_response_witness :
  demo_handler [("@type", PStr "ReadRecordsRequest"); ("catalogName", PStr "c")] PNone world0
  = (Returned
       (PDict [("@type", PStr "ReadRecordsResponse");
               ("catalogName", PStr "c");
               ("records",
                PDict [("aId", PStr "0");
                       ("schema", PStr "arrow");
                       ("records", PStr "arrow")]);
               ("requestType", PStr "READ_RECORDS")]),
     {| trace := [Print [PDict [("@type", PStr "ReadRecordsRequest");
                                ("catalogName", PStr "c")]];
                  NewS3VFS;
                  Connection "file:/data/sample_data.sqlite?bucket=bucket" 65 "s3vfs";
                  Execute "file:/data/sample_data.sqlite?bucket=bucket"
                    "SELECT * FROM records"];
        uuids_drawn := 1 |})
  /\ zip4 (column 0 demo_rows) (column 1 demo_rows) (column 2 demo_rows) (column 3 demo_rows)
     = demo_rows.
Proof.
  unfold demo_handler.
  destruct (read_records_response "bucket" "data/" demo_pages "s3vfs"
              (fun _ _ _ => None) (fun _ _ => (demo_rows, None))
              (fun n => pretty n) (fun _ => "arrow") (fun _ => "repr")
    demo_from_arrays_error
              [("@type", PStr "ReadRecordsRequest"); ("catalogName", PStr "c")]
              PNone (PStr "c") demo_rows world0)
    as (Hrun & Hrows & _).
  - reflexivity.
  - reflexivity.
  - reflexivity.
  - reflexivity.
  - repeat constructor.
  - reflexivity.
  - split; [exact Hrun | exact Hrows].
Defined.

End Demo.

Section DemoCore.
Import Core.
Local Close Scope string_scope.
Local Open Scope nat_scope.

Lemma demo_network_absorbed : absorbed 3 [true; false; true; true; false].
Proof.
  intros k. do 5 (destruct k as [|k]; [cbn; lia |]).
  destruct k; cbn; lia.
Defined.

Lemma demo_handle_opened : opened demo_store 3 demo_parse demo_handle.
Proof.
  exists "file:/catalog.db?bucket=mybucket"%string, (fresh []),
    {| faults := []; attempts := 1; cache := [] |}.
  vm_compute. reflexivity.
Defined.

Lemma read_at_transparent_witness :
  exists st',
    read_at demo_store 4 8 3 demo_handle 3 6 (fresh [true; false; true; true; false])
    = (Ok [Byte.x69; Byte.x74; Byte.x65; Byte.x20; Byte.x66; Byte.x6f], st').
Proof.
  destruct (read_at_transparent demo_store 4 8 3 demo_parse demo_handle demo_data 3 6
              (fresh [true; false; true; true; false]))
    as (_ & _ & Hgood).
  - lia.
  - exact demo_handle_opened.
  - reflexivity.
  - apply reach_start.
  - cbn. lia.
  - destruct (Hgood demo_network_absorbed) as (st' & Hrun & _).
    exists st'. exact Hrun.
Defined.

Lemma size_is_true_witness :
  size demo_handle = 10
  /\ read_at demo_store 4 8 3 demo_handle 10 1 (fresh [])
     = (Err ShortRead, fresh []).
Proof.
  destruct (size_is_true_and_reads_stop_there demo_store 4 8 3 demo_parse
              "file:/catalog.db?bucket=mybucket"%string (fresh [true])
              {| faults := []; attempts := 2; cache := [] |} demo_handle)
    as (data & _ & _ & Hpast & _).
  - vm_compute. reflexivity.
  - split; [reflexivity |]. apply (Hpast 1 (fresh [])). lia.
Defined.

Lemma fetch_retries_witness :
  fetch demo_store 4 demo_ref 0 4 (fresh [true; true; true; false])
  = (Ok [Byte.x53; Byte.x51; Byte.x4c; Byte.x69],
     {| faults := []; attempts := 4; cache := [] |})
  /\ fetch demo_store 4 demo_ref 0 4 (fresh [true; true; true; true; false])
     = (Err Transient, {| faults := [false]; attempts := 4; cache := [] |}).
Proof.
  destruct (fetch_retries_transient_only demo_store 4 demo_ref 0 4)
    as (Hscenario & _ & _ & Hgiveup).
  - lia.
  - split.
    + apply (Hscenario demo_data (fresh [true; true; true; false]) []).
      * reflexivity.
      * cbn. lia.
      * reflexivity.
    + apply (Hgiveup (fresh [true; true; true; true; false])). cbn. lia.
Defined.

End DemoCore.

(** ** More facts about the handler *)

Section PrefixAndNames.
Import Py Glue GlueProps.
Local Open Scope list_scope.

Context (TARGET_PREFIX : string).
Local Abbreviation S3_PREFIX := (Glue.S3_PREFIX TARGET_PREFIX).

Lemma append_cons c s t : String c s +:+ t = String c (s +:+ t).
Proof. reflexivity. Qed.

Lemma append_assoc (s t u : string) : (s +:+ t) +:+ u = s +:+ t +:+ u.
Proof.
  induction s as [|c s IH]; [reflexivity |].
  rewrite !append_cons. now rewrite IH.
Qed.

Lemma rstrip_slash_split (s : string) : exists n, s = rstrip_slash s +:+ slashes n.
Proof.
  induction s as [|c s [n IH]]; [now exists 0 |].
  cbn [rstrip_slash]. destruct (rstrip_slash s) as [|d r] eqn:Hr.
  - destruct (Ascii.eqb_spec c "/") as [-> | Hc].
    + exists (S n). now rewrite IH at 1.
    + exists n. now rewrite IH at 1.
  - exists n. rewrite append_cons. now rewrite <- IH.
Qed.

Lemma rstrip_slash_no_slash_end (s t : string) : rstrip_slash s <> t +:+ "/".
Proof.
  revert t. induction s as [|c s IH]; intros t.
  - destruct t; discriminate.
  - cbn [rstrip_slash]. destruct (rstrip_slash s) as [|d r] eqn:Hr.
    + destruct (Ascii.eqb_spec c "/") as [-> | Hc].
      * destruct t; discriminate.
      * destruct t as [|a [|b t]]; try discriminate.
        intros [= ->]. now apply Hc.
    + destruct t as [|a t]; [discriminate |].
      rewrite append_cons. intros [= -> Ht]. exact (IH t Ht).
Qed.

Lemma rstrip_slash_slashes n : rstrip_slash (slashes n) = EmptyString.
Proof. induction n as [|n IH]; [reflexivity |]. cbn [slashes rstrip_slash]. now rewrite IH. Qed.

(** X1. [S3_PREFIX] is [TARGET_PREFIX] with its trailing slashes cut off
    and nothing else touched: it never ends in a slash, and it is empty
    exactly when [TARGET_PREFIX] is nothing but slashes. *)
Theorem S3_PREFIX_is_stripped :
  (exists n, TARGET_PREFIX = S3_PREFIX +:+ slashes n)
  /\ (forall t, S3_PREFIX <> t +:+ "/")
  /\ (S3_PREFIX = EmptyString <-> exists n, TARGET_PREFIX = slashes n).
Proof.
  unfold Glue.S3_PREFIX. split; [apply rstrip_slash_split |].
  split; [intros t; apply rstrip_slash_no_slash_end |].
  split.
  - intros Hempty. destruct (rstrip_slash_split TARGET_PREFIX) as [n Hn].
    exists n. now rewrite Hempty in Hn.
  - intros [n ->]. apply rstrip_slash_slashes.
Qed.

(** *** Keys and schema names *)

Lemma has_char_append c (s t : string) :
  has_char c (s +:+ t) = has_char c s || has_char c t.
Proof.
  induction s as [|a s IH]; [reflexivity |].
  rewrite append_cons. cbn [has_char]. now rewrite IH, orb_assoc.
Qed.

Lemma prefix_has_char c (old s : string) :
  String.prefix old s = true -> has_char c old = true -> has_char c s = true.
Proof.
  revert s. induction old as [|a old IH]; intros s Hpre Hc; [discriminate |].
  destruct s as [|b s]; [discriminate |].
  cbn [String.prefix] in Hpre. destruct (ascii_dec a b) as [<- | _]; [| discriminate].
  cbn [has_char] in *. destruct (Ascii.eqb a c); [reflexivity |].
  cbn [orb] in *. now apply IH.
Qed.

(** A pattern that holds a character the string lacks occurs nowhere in
    it, and [replace] gives the string back. *)
Lemma replace_absent c (s old new : string) :
  has_char c old = true -> has_char c s = false -> replace s old new = s.
Proof.
  intros Hold. destruct old as [|a old]; [discriminate |].
  induction s as [|b s IH]; intros Hs; [reflexivity |].
  cbn [has_char] in Hs. apply orb_false_elim in Hs as [Hb Hs].
  rewrite replace_keep.
  - now rewrite IH.
  - destruct (String.prefix (String a old) (String b s)) eqn:Hpre; [| reflexivity].
    pose proof (prefix_has_char c _ _ Hpre Hold) as Hin.
    cbn [has_char] in Hin. rewrite Hb, Hs in Hin. discriminate.
Qed.

Lemma replace_sqlite_suffix (name : string) :
  has_char "." name = false -> replace (name +:+ ".sqlite") ".sqlite" EmptyString = name.
Proof.
  induction name as [|a name IH]; intros Hdot; [reflexivity |].
  cbn [has_char] in Hdot. apply orb_false_elim in Hdot as [Ha Hdot].
  rewrite append_cons, replace_keep.
  - now rewrite IH.
  - cbn [String.prefix]. apply Ascii.eqb_neq in Ha.
    destruct (ascii_dec "." a); [congruence | reflexivity].
Qed.

(** The first [replace] of [sqlite_basename] on a key under the prefix
    whose rest holds no slash: the prefix goes, the rest stays. *)
Lemma replace_prefix_of_key (rest : string) :
  has_char "/" rest = false ->
  replace (S3_PREFIX +:+ "/" +:+ rest) (S3_PREFIX +:+ "/") EmptyString = rest.
Proof.
  intros Hrest. rewrite <- append_assoc.
  assert (has_char "/" (S3_PREFIX +:+ "/") = true) as Hpat
    by (rewrite has_char_append; cbn; apply orb_true_r).
  destruct (S3_PREFIX +:+ "/") as [|a pat] eqn:Hp; [discriminate |].
  rewrite replace_match.
  now rewrite (replace_absent "/" rest (String a pat) EmptyString Hpat Hrest).
Qed.

(** X2. Listing and opening agree on database files. For a schema name
    without slash or dot, the key [{prefix}/{name}.sqlite] is listed under
    exactly that name, and the path that [ListTablesRequest] builds for a
    [schemaName] equal to the listed name is [file:/] followed by that very
    key, with the bucket as the [bucket] parameter. *)
Theorem listed_database_opens_itself (TARGET_BUCKET name : string)
    (repr : pyval -> string) (event : pydict) (w : world) :
  has_char "/" name = false ->
  has_char "." name = false ->
  dict_lookup event "schemaName"
  = Some (PStr (sqlite_basename TARGET_PREFIX {| Key := database_key S3_PREFIX name |})) ->
  sqlite_basename TARGET_PREFIX {| Key := database_key S3_PREFIX name |} = name
  /\ Glue.sqlite_vfs_path TARGET_BUCKET TARGET_PREFIX repr event w
     = (Returned ("file:/" +:+ database_key S3_PREFIX name
                  +:+ "?bucket=" +:+ Glue.S3_BUCKET TARGET_BUCKET), w).
Proof.
  intros Hslash Hdot Hschema.
  assert (sqlite_basename TARGET_PREFIX {| Key := database_key S3_PREFIX name |} = name)
    as Hname.
  { unfold sqlite_basename, database_key. cbn [Key].
    rewrite replace_prefix_of_key.
    - now apply replace_sqlite_suffix.
    - rewrite has_char_append, Hslash. reflexivity. }
  split; [exact Hname |].
  rewrite sqlite_vfs_path_returns. unfold dict_get. rewrite Hschema, Hname.
  cbn [py_str]. unfold vfs_uri, database_key. now rewrite !append_assoc.
Qed.

(** A key under the prefix whose name has no slash and no dot comes out of
    the two [replace] calls as that name, with or without the suffix. *)
Lemma basename_of_plain_key (name : string) :
  has_char "/" name = false ->
  has_char "." name = false ->
  sqlite_basename TARGET_PREFIX {| Key := S3_PREFIX +:+ "/" +:+ name |} = name
  /\ sqlite_basename TARGET_PREFIX {| Key := S3_PREFIX +:+ "/" +:+ name |}
     = sqlite_basename TARGET_PREFIX {| Key := database_key S3_PREFIX name |}.
Proof.
  intros Hslash Hdot.
  assert (sqlite_basename TARGET_PREFIX {| Key := S3_PREFIX +:+ "/" +:+ name |} = name)
    as Hplain.
  { unfold sqlite_basename. cbn [Key]. rewrite (replace_prefix_of_key name Hslash).
    now apply (replace_absent "." name ".sqlite" EmptyString). }
  split; [exact Hplain |]. rewrite Hplain.
  unfold sqlite_basename, database_key. cbn [Key].
  rewrite replace_prefix_of_key.
  - symmetry. now apply replace_sqlite_suffix.
  - rewrite has_char_append, Hslash. reflexivity.
Qed.

End PrefixAndNames.

Section HandlerFacts.
Import Py Glue GlueProps.
Local Open Scope list_scope.

Context (TARGET_BUCKET TARGET_PREFIX : string)
        (s3_answers : list s3_response)
        (vfsname : string)
        (connection_error : string -> Z -> string -> option string)
        (cursor_rows : string -> string -> list (list pyval) * option string)
        (uuid4 : nat -> string)
        (arrow_b64 : arrow_obj -> string)
        (repr : pyval -> string)
        (from_arrays_error : list (list pyval) -> arrow_schema -> option string).

Local Abbreviation S3_BUCKET := (Glue.S3_BUCKET TARGET_BUCKET).
Local Abbreviation S3_PREFIX := (Glue.S3_PREFIX TARGET_PREFIX).
Local Abbreviation lambda_handler :=
  (Glue.lambda_handler TARGET_BUCKET TARGET_PREFIX s3_answers vfsname
     connection_error cursor_rows uuid4 arrow_b64 repr from_arrays_error).
Local Abbreviation _fetch_table_list :=
  (Glue._fetch_table_list vfsname connection_error cursor_rows).
Local Abbreviation records_uri := (vfs_uri S3_PREFIX "sample_data" S3_BUCKET).
Local Abbreviation read_only := (Z.lor SQLITE_OPEN_READONLY SQLITE_OPEN_URI).

(** *** What the listing keeps *)

(** X3. The listing does not filter on the suffix. When S3 answers a run
    of pages, [_list_sqlite_objects] returns one schema name for every
    object listed, whatever its key; and an object under the prefix whose
    name has no slash and no dot (a file without extension, or the
    empty-named folder marker [{prefix}/]) is in the list under that name,
    as the database file [{prefix}/{name}.sqlite] is. *)
Theorem listing_is_not_filtered (pages : list s3_response) (last : s3_response)
    (extra : list s3_response) (w : world) :
  s3_answers = pages ++ last :: extra ->
  Forall has_token pages ->
  NextContinuationToken last = None ->
  exists schemas w',
    Glue._list_sqlite_objects TARGET_BUCKET TARGET_PREFIX s3_answers w
    = (Returned schemas, w')
    /\ length schemas = length (listed_objects (pages ++ [last]))
    /\ forall name,
         has_char "/" name = false ->
         has_char "." name = false ->
         In {| Key := S3_PREFIX +:+ "/" +:+ name |} (listed_objects (pages ++ [last]))
         \/ In {| Key := database_key S3_PREFIX name |} (listed_objects (pages ++ [last])) ->
         In name schemas.
Proof.
  intros Hs3 Hpages Hlast. unfold Glue._list_sqlite_objects. rewrite Hs3.
  change {| Bucket := S3_BUCKET; Prefix := S3_PREFIX +:+ "/"; Delimiter := "/";
            ContinuationToken := None |}
    with (listing_request S3_PREFIX S3_BUCKET None).
  rewrite (list_loop_pages TARGET_BUCKET TARGET_PREFIX pages last extra None [] w Hpages Hlast).
  eexists _, _. split; [reflexivity |]. cbn [app]. split; [apply length_map |].
  intros name Hslash Hdot Hlisted.
  destruct (basename_of_plain_key TARGET_PREFIX name Hslash Hdot) as [Hplain Hsame].
  destruct Hlisted as [Hin | Hin];
    apply (in_map (sqlite_basename TARGET_PREFIX)) in Hin.
  - now rewrite Hplain in Hin.
  - now rewrite <- Hsame, Hplain in Hin.
Qed.

(** *** Taking a returned computation apart *)

Lemma bind_returned {A B} (m : M A) (k : A -> M B) w v w' :
  bind m k w = (Returned v, w') ->
  exists a w1, m w = (Returned a, w1) /\ k a w1 = (Returned v, w').
Proof.
  unfold bind. destruct (m w) as [[a | e |] w1]; try discriminate. eauto.
Qed.

Lemma getitem_returned d k w v w' :
  getitem d k w = (Returned v, w') -> dict_lookup d k = Some v /\ w' = w.
Proof.
  unfold getitem. destruct (dict_lookup d k); [| discriminate].
  now intros [= -> ->].
Qed.

Lemma eq_str_true v lit : eq_str v lit = true -> v = PStr lit.
Proof.
  destruct v; try discriminate. cbn. intros H. now apply String.eqb_eq in H as ->.
Qed.

Ltac take_apart H :=
  repeat match type of H with
         | bind _ _ _ = (Returned _, _) =>
             let a := fresh "a" in
             let w := fresh "w" in
             let Hstep := fresh "Hstep" in
             apply bind_returned in H as (a & w & Hstep & H)
         end.

Ltac read_items :=
  repeat match goal with
         | H : getitem _ _ _ = (Returned _, _) |- _ =>
             apply getitem_returned in H as [H ->]
         end.

(** X4. Whatever [lambda_handler] returns is either [None], and then the
    event's [@type] is none of the seven handled ones, or a response dict
    whose [@type] is the event's with [Request] turned into [Response] and
    whose [catalogName] is the event's; a ListTablesRequest is never
    answered. *)
Theorem every_response_echoes (event : pydict) (context v : pyval) (w w' : world) :
  lambda_handler event context w = (Returned v, w') ->
  (v = PNone
   /\ forall t, In t handled_types -> dict_lookup event "@type" <> Some (PStr t))
  \/ (exists d kind c,
        v = PDict d
        /\ In kind answered_kinds
        /\ dict_lookup event "@type" = Some (PStr (kind +:+ "Request"))
        /\ dict_lookup d "@type" = Some (PStr (kind +:+ "Response"))
        /\ dict_lookup event "catalogName" = Some c
        /\ dict_lookup d "catalogName" = Some c).
Proof.
  unfold Glue.lambda_handler. intros H.
  apply bind_returned in H as (u & w0 & _ & H).
  apply bind_returned in H as (request_type & w1 & Htype & H).
  apply getitem_returned in Htype as [Htype ->].
  destruct (eq_str request_type "ListSchemasRequest") eqn:E1;
    [apply eq_str_true in E1 as ->; unfold Glue.ListSchemasRequest_execute in H |].
  { take_apart H. read_items. injection H as <- _. right.
    eexists _, "ListSchemas", _. repeat split; eauto. cbn; tauto. }
  destruct (eq_str request_type "ListTablesRequest") eqn:E2;
    [unfold Glue.ListTablesRequest_execute in H; take_apart H; discriminate |].
  destruct (eq_str request_type "GetTableRequest") eqn:E3;
    [apply eq_str_true in E3 as -> |].
  { take_apart H. read_items. injection H as <- _. right.
    eexists _, "GetTable", _. repeat split; eauto. cbn; tauto. }
  destruct (eq_str request_type "PingRequest") eqn:E4;
    [apply eq_str_true in E4 as -> |].
  { take_apart H. read_items. injection H as <- _. right.
    eexists _, "Ping", _. repeat split; eauto. cbn; tauto. }
  destruct (eq_str request_type "GetTableLayoutRequest") eqn:E5;
    [apply eq_str_true in E5 as -> |].
  { take_apart H. read_items. injection H as <- _. right.
    eexists _, "GetTableLayout", _. repeat split; eauto. cbn; tauto. }
  destruct (eq_str request_type "GetSplitsRequest") eqn:E6;
    [apply eq_str_true in E6 as -> |].
  { take_apart H. read_items. injection H as <- _. right.
    eexists _, "GetSplits", _. repeat split; eauto. cbn; tauto. }
  destruct (eq_str request_type "ReadRecordsRequest") eqn:E7;
    [apply eq_str_true in E7 as -> |].
  { take_apart H. read_items. injection H as <- _. right.
    eexists _, "ReadRecords", _. repeat split; eauto. cbn; tauto. }
  injection H as <- _. left. split; [reflexivity |].
  intros t Ht Heq. rewrite Htype in Heq. injection Heq as ->.
  cbn in Ht. cbn [eq_str] in *.
  repeat (destruct Ht as [<- | Ht]; [rewrite String.eqb_refl in *; discriminate |]).
  destruct Ht.
Qed.

(** *** Which request reaches which collaborator *)

Lemma emits_bind_raise {A B} P e (k : A -> M B) : emits P (bind (raise e) k).
Proof. intros w. exists []. cbn. rewrite app_nil_r. auto. Qed.

Lemma lambda_handler_emits_by_type P event context :
  (forall args, P (Print args)) ->
  (dict_lookup event "@type" = Some (PStr "ListSchemasRequest") ->
   forall p, P (ListObjectsV2 p)) ->
  (dict_lookup event "@type" = Some (PStr "ReadRecordsRequest") ->
   P NewS3VFS /\ P (Connection records_uri read_only vfsname)
   /\ P (Execute records_uri "SELECT * FROM records")) ->
  emits P (lambda_handler event context).
Proof.
  intros Hprint Hlist Hdb. unfold Glue.lambda_handler.
  apply emits_bind; [now apply emits_log | intros _].
  unfold getitem at 1. destruct (dict_lookup event "@type") as [request_type|];
    [| apply emits_bind_raise].
  apply emits_bind_ret.
  destruct (eq_str request_type "ListSchemasRequest") eqn:E1.
  { apply eq_str_true in E1 as ->. unfold Glue.ListSchemasRequest_execute.
    apply emits_bind; [apply emits_getitem | intros ?].
    apply emits_bind; [apply emits_list_loop; exact (Hlist eq_refl) | intros ?].
    apply emits_ret. }
  destruct (eq_str request_type "ListTablesRequest").
  { unfold Glue.ListTablesRequest_execute.
    apply emits_bind; [apply emits_str_format | intros ?].
    apply emits_bind; [apply emits_getitem | intros ?].
    apply emits_bind; [apply emits_raise | intros ?]. apply emits_ret. }
  destruct (eq_str request_type "GetTableRequest").
  { repeat first [ apply emits_ret
                 | apply emits_bind;
                   [ first [ apply emits_getitem | apply emits_subscript
                           | now apply emits_log ] | intros ? ] ]. }
  destruct (eq_str request_type "PingRequest").
  { repeat first [ apply emits_ret
                 | apply emits_bind; [ apply emits_getitem | intros ? ] ]. }
  destruct (eq_str request_type "GetTableLayoutRequest").
  { repeat first [ apply emits_ret
                 | apply emits_bind;
                   [ first [ apply emits_getitem | apply emits_subscript
                           | apply emits_fresh_uuid ] | intros ? ] ]. }
  destruct (eq_str request_type "GetSplitsRequest").
  { repeat first [ apply emits_ret
                 | apply emits_bind; [ apply emits_getitem | intros ? ] ]. }
  destruct (eq_str request_type "ReadRecordsRequest") eqn:E7; [| apply emits_ret].
  apply eq_str_true in E7 as ->. destruct (Hdb eq_refl) as (Hvfs & Hconn & Hexec).
  apply emits_bind; [now apply emits_log | intros _].
  unfold str_format.
  change (map (py_str repr) [PStr S3_PREFIX; PStr S3_BUCKET]) with [S3_PREFIX; S3_BUCKET].
  rewrite format_records_uri. apply emits_bind_ret.
  apply emits_bind; [now apply emits_connect | intros _].
  apply emits_bind; [apply emits_for_cursor; [assumption | intros; apply emits_append_record] |].
  intros records.
  repeat first [ apply emits_ret
               | apply emits_bind;
                 [ first [ apply emits_getitem | apply emits_fresh_uuid
                         | apply emits_from_arrays ] | intros ? ] ].
Qed.

(** X5. Only a ReadRecordsRequest reaches for the database and only a
    ListSchemasRequest lists the bucket: for an event of any other [@type]
    (or of none) [lambda_handler] creates no VFS, opens no connection and
    executes no statement, respectively sends no listing request. *)
Theorem effects_follow_the_request_type (event : pydict) (context : pyval) :
  (dict_lookup event "@type" <> Some (PStr "ReadRecordsRequest") ->
   emits (fun e => ~ database_effect e) (lambda_handler event context))
  /\ (dict_lookup event "@type" <> Some (PStr "ListSchemasRequest") ->
      emits (fun e => ~ listing_effect e) (lambda_handler event context)).
Proof.
  split; intros Hno; apply lambda_handler_emits_by_type; cbn; auto;
    try (intros Hyes; contradiction).
Qed.

(** *** What of the event the handler reads *)

Lemma alike_pure {A} (o : outcome A) : alike (fun w => (o, w)) (fun w => (o, w)).
Proof. intros w1 w2 Hu. exists []. cbn. now rewrite !app_nil_r. Qed.

Lemma alike_log e : alike (log e) (log e).
Proof. intros w1 w2 Hu. exists [e]. cbn. auto. Qed.

Lemma alike_fresh_uuid : alike (fresh_uuid uuid4) (fresh_uuid uuid4).
Proof. intros w1 w2 Hu. exists []. cbn. rewrite !app_nil_r, Hu. auto. Qed.

Lemma alike_bind {A B} (m1 m2 : M A) (k1 k2 : A -> M B) :
  alike m1 m2 -> (forall a, alike (k1 a) (k2 a)) -> alike (bind m1 k1) (bind m2 k2).
Proof.
  intros Hm Hk w1 w2 Hu. unfold bind.
  destruct (Hm w1 w2 Hu) as (new & Hout & Ht1 & Ht2 & Hu').
  destruct (m1 w1) as [o1 v1], (m2 w2) as [o2 v2]. cbn in *. subst o2.
  destruct o1 as [a | e |]; [| exists new; auto | exists new; auto].
  destruct (Hk a v1 v2 Hu') as (new' & Hout' & Ht1' & Ht2' & Hu'').
  exists (new ++ new'). rewrite Ht1', Ht2', Ht1, Ht2, <- !app_assoc. auto.
Qed.

Lemma alike_getitem d1 d2 k :
  dict_lookup d1 k = dict_lookup d2 k -> alike (getitem d1 k) (getitem d2 k).
Proof. intros Hk. unfold getitem. rewrite Hk. destruct (dict_lookup d2 k); apply alike_pure. Qed.

Lemma alike_subscript v k : alike (subscript v k) (subscript v k).
Proof. destruct v; cbn; try apply alike_pure. now apply alike_getitem. Qed.

Lemma alike_tuple_index row i : alike (tuple_index row i) (tuple_index row i).
Proof. unfold tuple_index. destruct (nth_error row i); apply alike_pure. Qed.

Lemma alike_str_format template args :
  alike (str_format repr template args) (str_format repr template args).
Proof. unfold str_format. destruct (format _ _); apply alike_pure. Qed.

Lemma alike_connect uri flags vfs :
  alike (connect connection_error uri flags vfs) (connect connection_error uri flags vfs).
Proof.
  unfold connect. apply alike_bind; [apply alike_log | intros _].
  destruct (connection_error uri flags vfs); apply alike_pure.
Qed.

Lemma alike_for_cursor {A} uri sql (body : list pyval -> A -> M A) acc :
  (forall row acc', alike (body row acc') (body row acc')) ->
  alike (for_cursor cursor_rows uri sql body acc) (for_cursor cursor_rows uri sql body acc).
Proof.
  intros Hbody. unfold for_cursor.
  apply alike_bind; [apply alike_log | intros _].
  apply alike_bind.
  - generalize acc. induction (fst (cursor_rows uri sql)) as [|row rest IH]; intros acc0.
    + apply alike_pure.
    + cbn [for_rows]. apply alike_bind; [apply Hbody | apply IH].
  - intros acc'. destruct (snd (cursor_rows uri sql)); apply alike_pure.
Qed.

Lemma alike_from_arrays columns schema :
  alike (from_arrays from_arrays_error columns schema)
        (from_arrays from_arrays_error columns schema).
Proof. unfold from_arrays. destruct (from_arrays_error columns schema); apply alike_pure. Qed.

Lemma alike_append_record row records :
  alike (append_record row records) (append_record row records).
Proof.
  unfold append_record.
  repeat (apply alike_bind; [apply alike_tuple_index | intros ?]). apply alike_pure.
Qed.

Lemma alike_list_loop answers params acc :
  alike (_list_sqlite_objects_loop TARGET_PREFIX answers params acc)
        (_list_sqlite_objects_loop TARGET_PREFIX answers params acc).
Proof.
  revert params acc. induction answers as [|response later IH]; intros params acc;
    cbn [_list_sqlite_objects_loop]; (apply alike_bind; [apply alike_log | intros _]).
  - apply alike_pure.
  - destruct (NextContinuationToken response); [apply IH | apply alike_pure].
Qed.

Lemma alike_bind_raise {A B} e (k1 k2 : A -> M B) :
  alike (bind (raise e) k1) (bind (raise e) k2).
Proof. intros w1 w2 Hu. exists []. cbn. now rewrite !app_nil_r. Qed.

Lemma alike_bind_ret {A B} (a : A) (k1 k2 : A -> M B) :
  alike (k1 a) (k2 a) -> alike (bind (ret a) k1) (bind (ret a) k2).
Proof. intros H w1 w2. exact (H w1 w2). Qed.

Lemma alike_bind_getitem_known {B} d1 d2 k (k1 k2 : pyval -> M B) :
  dict_lookup d1 k = dict_lookup d2 k ->
  (forall a, dict_lookup d1 k = Some a -> alike (k1 a) (k2 a)) ->
  alike (bind (getitem d1 k) k1) (bind (getitem d2 k) k2).
Proof.
  intros Hk H. unfold getitem. rewrite <- Hk.
  destruct (dict_lookup d1 k) as [a|]; [| apply alike_bind_raise].
  apply alike_bind_ret. now apply H.
Qed.

(** The path built from [schemaName] is built and dropped: what follows
    does not look at it. *)
Lemma alike_bind_vfs_path {B} event1 event2 (k1 k2 : string -> M B) :
  (forall a b, alike (k1 a) (k2 b)) ->
  alike (bind (Glue.sqlite_vfs_path TARGET_BUCKET TARGET_PREFIX repr event1) k1)
        (bind (Glue.sqlite_vfs_path TARGET_BUCKET TARGET_PREFIX repr event2) k2).
Proof.
  intros H w1 w2 Hu. unfold bind. rewrite !sqlite_vfs_path_returns. now apply H.
Qed.

Lemma bind_log_run {B} e (k : unit -> M B) w : bind (log e) k w = k tt (after w [e]).
Proof. reflexivity. Qed.

Ltac alike_steps :=
  repeat first
    [ apply alike_pure
    | apply alike_bind;
      [ first [ apply alike_getitem; assumption
              | apply alike_subscript
              | apply alike_log
              | apply alike_fresh_uuid
              | apply alike_str_format
              | apply alike_connect
              | apply alike_from_arrays
              | apply alike_for_cursor; intros; apply alike_append_record
              | apply alike_list_loop ]
      | intros ? ] ].

(** X6. [lambda_handler] reads of the event only [@type] and
    [catalogName], and besides them [tableName] for GetTableRequest and
    GetTableLayoutRequest and [queryId] for PingRequest. Two events that
    agree on these come to the same outcome and cause the same calls after
    the event is printed, whatever else they hold: in particular a
    ReadRecordsRequest is answered alike whatever table, schema, constraints
    or split it names. *)
Theorem handler_reads_four_keys (event1 event2 : pydict) (context1 context2 : pyval)
    (w : world) :
  dict_lookup event1 "@type" = dict_lookup event2 "@type" ->
  dict_lookup event1 "catalogName" = dict_lookup event2 "catalogName" ->
  (dict_lookup event1 "@type" = Some (PStr "GetTableRequest")
   \/ dict_lookup event1 "@type" = Some (PStr "GetTableLayoutRequest") ->
   dict_lookup event1 "tableName" = dict_lookup event2 "tableName") ->
  (dict_lookup event1 "@type" = Some (PStr "PingRequest") ->
   dict_lookup event1 "queryId" = dict_lookup event2 "queryId") ->
  exists calls,
    fst (lambda_handler event1 context1 w) = fst (lambda_handler event2 context2 w)
    /\ trace (snd (lambda_handler event1 context1 w))
       = trace w ++ Print [PDict event1] :: calls
    /\ trace (snd (lambda_handler event2 context2 w))
       = trace w ++ Print [PDict event2] :: calls.
Proof.
  intros Htype Hcatalog Htable Hquery.
  unfold Glue.lambda_handler.
  rewrite (bind_log_run (Print [PDict event1])), (bind_log_run (Print [PDict event2])).
  cbv beta zeta.
  match goal with
  | |- exists calls, fst (?m1 ?w1) = fst (?m2 ?w2) /\ _ =>
      assert (alike m1 m2) as Halike
  end.
  { apply alike_bind_getitem_known; [exact Htype |]. intros request_type Ht.
    rewrite Ht in Htable, Hquery.
    destruct (eq_str request_type "ListSchemasRequest").
    { unfold Glue.ListSchemasRequest_execute, Glue._list_sqlite_objects. alike_steps. }
    destruct (eq_str request_type "ListTablesRequest").
    { unfold Glue.ListTablesRequest_execute.
      apply alike_bind_vfs_path. intros _ _. alike_steps. }
    destruct (eq_str request_type "GetTableRequest") eqn:E3.
    { apply eq_str_true in E3 as ->. specialize (Htable (or_introl eq_refl)).
      alike_steps. }
    destruct (eq_str request_type "PingRequest") eqn:E4.
    { apply eq_str_true in E4 as ->. specialize (Hquery eq_refl). alike_steps. }
    destruct (eq_str request_type "GetTableLayoutRequest") eqn:E5.
    { apply eq_str_true in E5 as ->. specialize (Htable (or_intror eq_refl)).
      alike_steps. }
    destruct (eq_str request_type "GetSplitsRequest"); [alike_steps |].
    destruct (eq_str request_type "ReadRecordsRequest"); alike_steps. }
  destruct (Halike (after w [Print [PDict event1]]) (after w [Print [PDict event2]]) eq_refl)
    as (calls & Hout & Ht1 & Ht2 & _).
  exists calls. split; [exact Hout |].
  rewrite Ht1, Ht2. cbn [after trace]. now rewrite <- !app_assoc.
Qed.

(** *** _fetch_table_list *)

Local Abbreviation tables_sql :=
  "SELECT name FROM sqlite_master WHERE type='table' ORDER BY name;"%string.

Lemma connect_returned uri flags vfs w u w' :
  connect connection_error uri flags vfs w = (Returned u, w') ->
  connection_error uri flags vfs = None /\ w' = after w [Connection uri flags vfs].
Proof.
  unfold connect, bind, log. cbn.
  destruct (connection_error uri flags vfs); [discriminate |].
  now intros [= _ <-].
Qed.

(** X7. [_fetch_table_list] never hands back a table list. It returns,
    and then [None], only when the connection opens and the query ends
    without error and without a single row; on a database that has a table
    it raises [NameError] for [sqlite_dbname] at the first row, having opened
    the connection, run the query and printed that table's name. *)
Theorem fetch_table_list_never_lists (sqlite_path : string) (w : world) :
  (forall v w',
     _fetch_table_list sqlite_path w = (Returned v, w') ->
     v = PNone
     /\ connection_error sqlite_path read_only vfsname = None
     /\ cursor_rows sqlite_path tables_sql = ([], None))
  /\ (forall name row rows err,
        connection_error sqlite_path read_only vfsname = None ->
        cursor_rows sqlite_path tables_sql = ((name :: row) :: rows, err) ->
        _fetch_table_list sqlite_path w
        = (Raised (NameError "sqlite_dbname"),
           after w [Connection sqlite_path read_only vfsname;
                    Execute sqlite_path tables_sql;
                    Print [PStr "Found table: "; name]])).
Proof.
  unfold Glue._fetch_table_list. split.
  - intros v w' H.
    apply bind_returned in H as (u & w1 & Hconn & H).
    apply connect_returned in Hconn as [Hconn ->].
    apply bind_returned in H as (tables & w2 & Hrows & H).
    injection H as <- _. split; [reflexivity |]. split; [exact Hconn |].
    unfold for_cursor in Hrows.
    apply bind_returned in Hrows as (u' & w3 & _ & Hrows).
    apply bind_returned in Hrows as (acc & w4 & Hloop & Hend).
    destruct (cursor_rows sqlite_path tables_sql) as [[|row rows] err];
      cbn [fst snd] in *.
    + destruct err; [discriminate | reflexivity].
    + cbn [for_rows] in Hloop.
      apply bind_returned in Hloop as (acc' & w5 & Hbody & _).
      take_apart Hbody.
      match goal with
      | Hname : unbound _ _ = (Returned _, _) |- _ => discriminate Hname
      end.
  - intros name row rows err Hconn Hrows.
    unfold bind at 1, connect, bind at 1, log at 1. rewrite Hconn.
    unfold ret at 1, bind at 1, for_cursor, bind at 1, log at 1. rewrite Hrows.
    cbn [fst for_rows]. unfold after. cbn. now rewrite <- !app_assoc.
Qed.

(** *** ReadRecordsRequest on other tables and events *)

Local Abbreviation records_sql := "SELECT * FROM records"%string.
Local Abbreviation no_records := {| year := []; month := []; day := []; someval := [] |}.

Lemma append_record_wide row records w :
  4 <= length row ->
  append_record row records w
  = (Returned {| year := year records ++ [nth 0 row PNone];
                 month := month records ++ [nth 1 row PNone];
                 day := day records ++ [nth 2 row PNone];
                 someval := someval records ++ [nth 3 row PNone] |}, w).
Proof.
  destruct row as [|v0 [|v1 [|v2 [|v3 rest]]]]; cbn [length]; try lia. reflexivity.
Qed.


Lemma for_rows_wide rows records w :
  Forall (fun row => 4 <= length row) rows ->
  for_rows rows append_record records w
  = (Returned {| year := year records ++ column 0 rows;
                 month := month records ++ column 1 rows;
                 day := day records ++ column 2 rows;
                 someval := someval records ++ column 3 rows |}, w).
Proof.
  intros Hrows. revert records.
  induction Hrows as [|row rows Hrow _ IH]; intros [ys ms ds vs].
  - cbn. now rewrite !app_nil_r.
  - cbn [for_rows]. unfold bind. rewrite (append_record_wide _ _ _ Hrow), IH.
    cbn [year month day someval column map]. now rewrite <- !app_assoc.
Qed.


Lemma bind_assoc {A B C} (m : M A) (f : A -> M B) (g : B -> M C) w :
  bind (bind m f) g w = bind m (fun a => bind (f a) g) w.
Proof. unfold bind. now destruct (m w) as [[a | e |] w1]. Qed.

Lemma bind_ext {A B} (m : M A) (f g : A -> M B) w :
  (forall a w', f a w' = g a w') -> bind m f w = bind m g w.
Proof. intros H. unfold bind. destruct (m w) as [[a | e |] w1]; auto. Qed.

Lemma after_after w es es' : after (after w es) es' = after w (es ++ es').
Proof. unfold after. cbn. now rewrite app_assoc. Qed.

Local Abbreviation records_of rows :=
  {| year := column 0 rows; month := column 1 rows;
     day := column 2 rows; someval := column 3 rows |}.

(** The ReadRecordsRequest branch up to the end of the row loop. *)
Lemma read_records_run (event : pydict) (context : pyval) (w : world) :
  dict_lookup event "@type" = Some (PStr "ReadRecordsRequest") ->
  connection_error records_uri read_only vfsname = None ->
  exists rest : record_columns -> M pyval,
    (forall records c w1,
       from_arrays_error [year records; month records; day records; someval records]
         faux_schema = None ->
       dict_lookup event "catalogName" = Some c ->
       rest records w1
       = (Returned
            (PDict [("@type", PStr "ReadRecordsResponse");
                    ("catalogName", c);
                    ("records",
                     PDict [("aId", PStr (uuid4 (uuids_drawn w1)));
                            ("schema", PStr (arrow_b64 (pa_schema faux_schema)));
                            ("records",
                             PStr (arrow_b64
                                     (pa_RecordBatch_from_arrays
                                        [year records; month records; day records;
                                         someval records]
                                        (Some faux_schema))))]);
                    ("requestType", PStr "READ_RECORDS")]),
          {| trace := trace w1; uuids_drawn := S (uuids_drawn w1) |}))
    /\ (forall records w1,
          from_arrays_error [year records; month records; day records; someval records]
            faux_schema = None ->
          dict_lookup event "catalogName" = None ->
          rest records w1 = (Raised (KeyError "catalogName"), w1))
    /\ (forall records msg w1,
          from_arrays_error [year records; month records; day records; someval records]
            faux_schema = Some msg ->
          rest records w1 = (Raised (ArrowInvalid msg), w1))
    /\ lambda_handler event context w
       = bind (for_rows (fst (cursor_rows records_uri records_sql)) append_record no_records)
           (fun records =>
              match snd (cursor_rows records_uri records_sql) with
              | Some msg => raise (DatabaseError msg)
              | None => rest records
              end)
           (after w [Print [PDict event]; NewS3VFS;
                     Connection records_uri read_only vfsname;
                     Execute records_uri records_sql]).
Proof.
  intros Htype Hconn.
  exists (fun records =>
            bind (from_arrays from_arrays_error
                    [year records; month records; day records; someval records]
                    faux_schema)
              (fun batch =>
                 bind (getitem event "catalogName")
                   (fun catalogName =>
                      bind (fresh_uuid uuid4)
                        (fun aId =>
                           ret (PDict [("@type", PStr "ReadRecordsResponse");
                                       ("catalogName", catalogName);
                                       ("records",
                                        PDict [("aId", PStr aId);
                                               ("schema",
                                                PStr (arrow_b64 (pa_schema faux_schema)));
                                               ("records", PStr (arrow_b64 batch))]);
                                       ("requestType", PStr "READ_RECORDS")]))))).
  split; [| split; [| split]].
  - intros records c w1 Harrow Hc. unfold bind, from_arrays, getitem.
    rewrite Harrow, Hc. reflexivity.
  - intros records w1 Harrow Hc. unfold bind, from_arrays, getitem.
    rewrite Harrow, Hc. reflexivity.
  - intros records msg w1 Harrow. unfold bind, from_arrays. rewrite Harrow. reflexivity.
  - unfold Glue.lambda_handler. rewrite bind_log_run.
    unfold bind at 1, getitem at 1. rewrite Htype. unfold ret at 1.
    cbn [eq_str String.eqb Ascii.eqb Bool.eqb]. rewrite bind_log_run.
    unfold bind at 1, str_format.
    change (map (py_str repr) [PStr S3_PREFIX; PStr S3_BUCKET]) with [S3_PREFIX; S3_BUCKET].
    rewrite format_records_uri. unfold ret at 1.
    unfold bind at 1, connect. rewrite bind_log_run. rewrite Hconn. unfold ret at 1.
    unfold for_cursor. rewrite bind_assoc, bind_log_run, bind_assoc.
    rewrite !after_after. cbn [app].
    apply bind_ext. intros records w1.
    destruct (snd (cursor_rows records_uri records_sql)); reflexivity.
Qed.


(** X9. An event without [catalogName] fails at different points of the
    two request classes: a ListSchemasRequest raises [KeyError] before any
    listing request is sent, a ReadRecordsRequest only after the connection
    was opened, the whole table was read and pyarrow took its columns. *)
Theorem missing_catalog_name_fails_early_or_late (event : pydict) (context : pyval)
    (rows : list (list pyval)) (w : world) :
  dict_lookup event "catalogName" = None ->
  (dict_lookup event "@type" = Some (PStr "ListSchemasRequest") ->
   lambda_handler event context w
   = (Raised (KeyError "catalogName"), after w [Print [PDict event]]))
  /\ (dict_lookup event "@type" = Some (PStr "ReadRecordsRequest") ->
      connection_error records_uri read_only vfsname = None ->
      cursor_rows records_uri records_sql = (rows, None) ->
      Forall (fun row => 4 <= length row) rows ->
      from_arrays_error [column 0 rows; column 1 rows; column 2 rows; column 3 rows]
        faux_schema = None ->
      lambda_handler event context w
      = (Raised (KeyError "catalogName"),
         after w [Print [PDict event]; NewS3VFS;
                  Connection records_uri read_only vfsname;
                  Execute records_uri records_sql])).
Proof.
  intros Hc. split.
  - intros Htype. unfold Glue.lambda_handler. rewrite bind_log_run.
    unfold bind at 1, getitem at 1. rewrite Htype. unfold ret at 1.
    cbn [eq_str String.eqb Ascii.eqb Bool.eqb].
    unfold Glue.ListSchemasRequest_execute, bind, getitem. now rewrite Hc.
  - intros Htype Hconn Hrows Hwide Harrow.
    destruct (read_records_run event context w Htype Hconn) as (rest & _ & Hrest & _ & ->).
    rewrite Hrows. cbn [fst snd]. unfold bind at 1.
    rewrite for_rows_wide by exact Hwide.
    cbn [year month day someval app].
    apply (Hrest (records_of rows)); [exact Harrow | exact Hc].
Qed.

(** *** GetTableRequest and GetTableLayoutRequest *)

Lemma subscript_returned v k w a w' :
  subscript v k w = (Returned a, w') ->
  exists d, v = PDict d /\ dict_lookup d k = Some a /\ w' = w.
Proof.
  destruct v; try discriminate. cbn [subscript]. intros H.
  apply getitem_returned in H as [H ->]. eauto.
Qed.

(** X10. A GetTableRequest or GetTableLayoutRequest that is answered had
    a dict under [tableName] with a [schemaName] and a [tableName], and the
    response's [tableName] echoes the two; a [tableName] that is present but
    no dict raises [TypeError] right after the event is printed. A
    GetTableRequest is answered the same four-column schema whatever table
    it names, and the last thing it prints is the response it returns. *)
Theorem table_requests_echo_the_table (event : pydict) (context : pyval) (w : world) :
  dict_lookup event "@type" = Some (PStr "GetTableRequest")
  \/ dict_lookup event "@type" = Some (PStr "GetTableLayoutRequest") ->
  (forall v w',
     lambda_handler event context w = (Returned v, w') ->
     exists tn schema table d,
       dict_lookup event "tableName" = Some (PDict tn)
       /\ dict_lookup tn "schemaName" = Some schema
       /\ dict_lookup tn "tableName" = Some table
       /\ v = PDict d
       /\ dict_lookup d "tableName"
          = Some (PDict [("schemaName", schema); ("tableName", table)]))
  /\ (forall x,
        dict_lookup event "tableName" = Some x ->
        (forall tn, x <> PDict tn) ->
        lambda_handler event context w = (Raised TypeError, after w [Print [PDict event]]))
  /\ (dict_lookup event "@type" = Some (PStr "GetTableRequest") ->
      forall v w',
        lambda_handler event context w = (Returned v, w') ->
        (exists d, v = PDict d
                   /\ dict_lookup d "schema"
                      = Some (PDict [("schema", PStr (arrow_b64 (pa_schema faux_schema)))]))
        /\ w' = after w [Print [PDict event]; Print [PStr "passing back faux table"];
                         Print [v]]).
Proof.
  intros Hkind. split; [| split].
  - intros v w' H. unfold Glue.lambda_handler in H.
    rewrite bind_log_run in H. unfold bind at 1, getitem at 1 in H.
    destruct Hkind as [Htype | Htype]; rewrite Htype in H; unfold ret at 1 in H;
      cbn [eq_str String.eqb Ascii.eqb Bool.eqb] in H;
      take_apart H; read_items;
      repeat match goal with
             | Hs : subscript _ _ _ = (Returned _, _) |- _ =>
                 apply subscript_returned in Hs as (? & -> & Hs & ->)
             end;
      injection H as <- _;
      match goal with
      | H1 : dict_lookup event "tableName" = Some (PDict ?a),
        H2 : dict_lookup event "tableName" = Some (PDict ?b) |- _ =>
          assert (a = b) as -> by congruence
      end;
      eexists _, _, _, _; repeat split; eauto.
  - intros x Hx Hnodict. unfold Glue.lambda_handler.
    rewrite bind_log_run. unfold bind at 1, getitem at 1.
    destruct Hkind as [Htype | Htype]; rewrite Htype; unfold ret at 1;
      cbn [eq_str String.eqb Ascii.eqb Bool.eqb];
      unfold bind at 1, getitem at 1; rewrite Hx; unfold ret at 1;
      unfold bind at 1; destruct x; try reflexivity; now destruct (Hnodict d).
  - intros Htype v w' H. unfold Glue.lambda_handler in H.
    rewrite bind_log_run in H. unfold bind at 1, getitem at 1 in H.
    rewrite Htype in H. unfold ret at 1 in H.
    cbn [eq_str String.eqb Ascii.eqb Bool.eqb] in H.
    take_apart H. read_items.
    repeat match goal with
           | Hs : subscript _ _ _ = (Returned _, _) |- _ =>
               apply subscript_returned in Hs as (? & -> & Hs & ->)
           | Hl : log _ _ = (Returned _, _) |- _ => injection Hl as _ <-
           end.
    injection H as <- <-. split; [eexists; split; reflexivity |].
    match goal with
    | H1 : dict_lookup event "catalogName" = Some ?a,
      H2 : dict_lookup event "catalogName" = Some ?b |- _ =>
        assert (a = b) as -> by congruence
    end.
    unfold after. cbn. now rewrite <- !app_assoc.
Qed.

Lemma fresh_uuid_returned w u w' :
  fresh_uuid uuid4 w = (Returned u, w') ->
  u = uuid4 (uuids_drawn w) /\ trace w' = trace w /\ uuids_drawn w' = S (uuids_drawn w).
Proof. unfold fresh_uuid. now intros [= <- <-]. Qed.

(** The GetTableLayoutRequest branch, once it has returned. *)
Lemma table_layout_returned (event : pydict) (context v : pyval) (w w' : world) :
  dict_lookup event "@type" = Some (PStr "GetTableLayoutRequest") ->
  lambda_handler event context w = (Returned v, w') ->
  exists d schema records,
    v = PDict d
    /\ dict_lookup d "partitions"
       = Some (PDict [("aId", PStr (uuid4 (S (uuids_drawn w))));
                      ("schema", PStr schema); ("records", PStr records)])
    /\ uuids_drawn w' = S (S (uuids_drawn w))
    /\ forall event2 context2 w2 v2 w2',
         dict_lookup event2 "@type" = Some (PStr "GetTableLayoutRequest") ->
         lambda_handler event2 context2 w2 = (Returned v2, w2') ->
         exists d2 aId2,
           v2 = PDict d2
           /\ dict_lookup d2 "partitions"
              = Some (PDict [("aId", aId2); ("schema", PStr schema);
                             ("records", PStr records)]).
Proof.
  intros Htype H. unfold Glue.lambda_handler in H.
  rewrite bind_log_run in H. unfold bind at 1, getitem at 1 in H.
  rewrite Htype in H. unfold ret at 1 in H.
  cbn [eq_str String.eqb Ascii.eqb Bool.eqb] in H.
  take_apart H. read_items.
  repeat match goal with
         | Hs : subscript _ _ _ = (Returned _, _) |- _ =>
             apply subscript_returned in Hs as (? & -> & Hs & ->)
         | Hu : fresh_uuid _ _ = (Returned _, _) |- _ =>
             apply fresh_uuid_returned in Hu as (-> & ? & ?)
         end.
  injection H as <- <-.
  eexists _, _, _. split; [reflexivity |]. split.
  { cbn [dict_lookup String.eqb Ascii.eqb Bool.eqb].
    repeat match goal with Hu : uuids_drawn _ = _ |- _ => rewrite Hu end.
    reflexivity. }
  split.
  { repeat match goal with Hu : uuids_drawn _ = _ |- _ => rewrite Hu end. reflexivity. }
  intros event2 context2 w2 v2 w2' Htype2 Hrun2. unfold Glue.lambda_handler in Hrun2.
  rewrite bind_log_run in Hrun2. unfold bind at 1, getitem at 1 in Hrun2.
  rewrite Htype2 in Hrun2. unfold ret at 1 in Hrun2.
  cbn [eq_str String.eqb Ascii.eqb Bool.eqb] in Hrun2.
  take_apart Hrun2. injection Hrun2 as <- _.
  eexists _, _. split; reflexivity.
Qed.

(** X11. Every answer to a GetTableLayoutRequest carries the same
    partition block but for its [aId]: the block's [schema] and [records]
    are the same two strings whatever the event, the table it names and the
    world. The handler draws two uuids for it and the block's [aId] is the
    second. *)
Theorem table_layout_is_fixed (event1 event2 : pydict) (context1 context2 v1 v2 : pyval)
    (w1 w1' w2 w2' : world) :
  dict_lookup event1 "@type" = Some (PStr "GetTableLayoutRequest") ->
  dict_lookup event2 "@type" = Some (PStr "GetTableLayoutRequest") ->
  lambda_handler event1 context1 w1 = (Returned v1, w1') ->
  lambda_handler event2 context2 w2 = (Returned v2, w2') ->
  exists d1 d2 schema records,
    v1 = PDict d1 /\ v2 = PDict d2
    /\ dict_lookup d1 "partitions"
       = Some (PDict [("aId", PStr (uuid4 (S (uuids_drawn w1))));
                      ("schema", PStr schema); ("records", PStr records)])
    /\ dict_lookup d2 "partitions"
       = Some (PDict [("aId", PStr (uuid4 (S (uuids_drawn w2))));
                      ("schema", PStr schema); ("records", PStr records)])
    /\ uuids_drawn w1' = S (S (uuids_drawn w1))
    /\ uuids_drawn w2' = S (S (uuids_drawn w2)).
Proof.
  intros Ht1 Ht2 H1 H2.
  destruct (table_layout_returned _ _ _ _ _ Ht1 H1) as (d1 & schema & records & -> & Hp1 & Hu1 & Hsame).
  destruct (table_layout_returned _ _ _ _ _ Ht2 H2) as (d2 & schema2 & records2 & -> & Hp2 & Hu2 & _).
  destruct (Hsame _ _ _ _ _ Ht2 H2) as (d2' & aId2 & [= <-] & Hp2').
  rewrite Hp2 in Hp2'. injection Hp2' as _ -> ->.
  exists d1, d2, schema, records. auto 10.
Qed.

End HandlerFacts.

(** ** These facts at work on the demo deployment *)

Section DemoMore.
Import Py Glue GlueProps.
Local Open Scope list_scope.

Local Abbreviation demo_uri := "file:/data/sample_data.sqlite?bucket=bucket"%string.

Lemma listed_database_opens_itself_witness :
  sqlite_basename "data/" {| Key := "data/sales.sqlite" |} = "sales"
  /\ sqlite_vfs_path "bucket" "data/" (fun _ => "repr") [("schemaName", PStr "sales")] world0
     = (Returned "file:/data/sales.sqlite?bucket=bucket", world0).
Proof.
  apply (listed_database_opens_itself "data/" "bucket" "sales" (fun _ => "repr")
           [("schemaName", PStr "sales")] world0); reflexivity.
Defined.

Lemma listing_is_not_filtered_witness :
  exists schemas w',
    _list_sqlite_objects "bucket" "data/" mixed_pages world0 = (Returned schemas, w')
    /\ length schemas = 4
    /\ In EmptyString schemas
    /\ In "notes" schemas.
Proof.
  destruct (listing_is_not_filtered "bucket" "data/" mixed_pages
              (take 1 mixed_pages)
              (List.last mixed_pages (Build_s3_response None None)) [] world0)
    as (schemas & w' & Hrun & Hlen & Hin).
  - reflexivity.
  - repeat constructor. now exists "t1".
  - reflexivity.
  - exists schemas, w'. split; [exact Hrun |]. split; [exact Hlen |]. split.
    + apply (Hin EmptyString eq_refl eq_refl). left. cbn. tauto.
    + apply (Hin "notes" eq_refl eq_refl). left. cbn. tauto.
Defined.

Lemma every_response_echoes_witness :
  demo_handler ping_event PNone world0
  = (Returned ping_response, after world0 [Print [PDict ping_event]])
  /\ ((ping_response = PNone
       /\ forall t, In t handled_types -> dict_lookup ping_event "@type" <> Some (PStr t))
      \/ (exists d kind c,
            ping_response = PDict d
            /\ In kind answered_kinds
            /\ dict_lookup ping_event "@type" = Some (PStr (kind +:+ "Request"))
            /\ dict_lookup d "@type" = Some (PStr (kind +:+ "Response"))
            /\ dict_lookup ping_event "catalogName" = Some c
            /\ dict_lookup d "catalogName" = Some c)).
Proof.
  split; [reflexivity |].
  exact (every_response_echoes "bucket" "data/" demo_pages "s3vfs"
           (fun _ _ _ => None) (fun _ _ => (demo_rows, None))
           (fun n => pretty n) (fun _ => "arrow") (fun _ => "repr")
    demo_from_arrays_error
           ping_event PNone ping_response
           world0 (after world0 [Print [PDict ping_event]]) eq_refl).
Defined.

Lemma effects_follow_the_request_type_witness :
  emits (fun e => ~ database_effect e) (demo_handler ping_event PNone)
  /\ emits (fun e => ~ listing_effect e) (demo_handler ping_event PNone).
Proof.
  unfold demo_handler.
  split; apply effects_follow_the_request_type; discriminate.
Defined.

Lemma handler_reads_four_keys_witness :
  exists calls,
    fst (demo_handler (read_records_event "records") PNone world0)
    = fst (demo_handler (read_records_event "orders") (PStr "context") world0)
    /\ trace (snd (demo_handler (read_records_event "records") PNone world0))
       = trace world0 ++ Print [PDict (read_records_event "records")] :: calls
    /\ trace (snd (demo_handler (read_records_event "orders") (PStr "context") world0))
       = trace world0 ++ Print [PDict (read_records_event "orders")] :: calls.
Proof.
  unfold demo_handler. apply handler_reads_four_keys.
  - reflexivity.
  - reflexivity.
  - intros [H | H]; discriminate H.
  - intros H. discriminate H.
Defined.

Lemma fetch_table_list_never_lists_witness :
  _fetch_table_list "s3vfs" (fun _ _ _ => None) (fun _ _ => ([[PStr "records"]], None))
    "file:/data/sales.sqlite?bucket=bucket" world0
  = (Raised (NameError "sqlite_dbname"),
     after world0
       [Connection "file:/data/sales.sqlite?bucket=bucket" 65 "s3vfs";
        Execute "file:/data/sales.sqlite?bucket=bucket"
          "SELECT name FROM sqlite_master WHERE type='table' ORDER BY name;";
        Print [PStr "Found table: "; PStr "records"]]).
Proof.
  apply (proj2 (fetch_table_list_never_lists "s3vfs" (fun _ _ _ => None)
                  (fun _ _ => ([[PStr "records"]], None))
                  "file:/data/sales.sqlite?bucket=bucket" world0)
           (PStr "records") [] [] None); reflexivity.
Defined.


Lemma missing_catalog_name_witness :
  demo_handler [("@type", PStr "ListSchemasRequest")] PNone world0
  = (Raised (KeyError "catalogName"),
     after world0 [Print [PDict [("@type", PStr "ListSchemasRequest")]]])
  /\ demo_handler [("@type", PStr "ReadRecordsRequest")] PNone world0
     = (Raised (KeyError "catalogName"),
        after world0 [Print [PDict [("@type", PStr "ReadRecordsRequest")]]; NewS3VFS;
                      Connection demo_uri 65 "s3vfs";
                      Execute demo_uri "SELECT * FROM records"]).
Proof.
  unfold demo_handler. split.
  - apply (proj1 (missing_catalog_name_fails_early_or_late "bucket" "data/" demo_pages
                    "s3vfs" (fun _ _ _ => None) (fun _ _ => (demo_rows, None))
                    (fun n => pretty n) (fun _ => "arrow") (fun _ => "repr")
    demo_from_arrays_error
                    [("@type", PStr "ListSchemasRequest")] PNone demo_rows world0 eq_refl)).
    reflexivity.
  - apply (proj2 (missing_catalog_name_fails_early_or_late "bucket" "data/" demo_pages
                    "s3vfs" (fun _ _ _ => None) (fun _ _ => (demo_rows, None))
                    (fun n => pretty n) (fun _ => "arrow") (fun _ => "repr")
    demo_from_arrays_error
                    [("@type", PStr "ReadRecordsRequest")] PNone demo_rows world0 eq_refl));
      try reflexivity.
    repeat constructor.
Defined.

Lemma table_requests_echo_the_table_witness :
  demo_handler (get_table_event (PStr "records")) PNone world0
  = (Raised TypeError, after world0 [Print [PDict (get_table_event (PStr "records"))]])
  /\ exists d,
       fst (demo_handler
              (get_table_event (PDict [("schemaName", PStr "sales");
                                       ("tableName", PStr "records")]))
              PNone world0)
       = Returned (PDict d)
       /\ dict_lookup d "schema" = Some (PDict [("schema", PStr "arrow")]).
Proof.
  unfold demo_handler. split.
  - apply (proj1 (proj2 (table_requests_echo_the_table "bucket" "data/" demo_pages
                           "s3vfs" (fun _ _ _ => None) (fun _ _ => (demo_rows, None))
                           (fun n => pretty n) (fun _ => "arrow") (fun _ => "repr")
    demo_from_arrays_error
                           (get_table_event (PStr "records")) PNone world0
                           (or_introl eq_refl)))
             (PStr "records")); [reflexivity | discriminate].
  - destruct (Glue.lambda_handler "bucket" "data/" demo_pages "s3vfs"
                (fun _ _ _ => None) (fun _ _ => (demo_rows, None))
                (fun n => pretty n) (fun _ => "arrow") (fun _ => "repr")
    demo_from_arrays_error
                (get_table_event (PDict [("schemaName", PStr "sales");
                                         ("tableName", PStr "records")]))
                PNone world0) as [[v | e |] w'] eqn:Hrun; try discriminate Hrun.
    destruct (proj2 (proj2 (table_requests_echo_the_table "bucket" "data/" demo_pages
                              "s3vfs" (fun _ _ _ => None) (fun _ _ => (demo_rows, None))
                              (fun n => pretty n) (fun _ => "arrow") (fun _ => "repr")
    demo_from_arrays_error
                              (get_table_event (PDict [("schemaName", PStr "sales");
                                                       ("tableName", PStr "records")]))
                              PNone world0 (or_introl eq_refl))) eq_refl v w' Hrun)
      as [(d & -> & Hd) _].
    exists d. split; [reflexivity | exact Hd].
Defined.

Lemma table_layout_is_fixed_witness :
  exists d1 d2 schema records,
    dict_lookup d1 "partitions"
    = Some (PDict [("aId", PStr "1"); ("schema", PStr schema); ("records", PStr records)])
    /\ dict_lookup d2 "partitions"
       = Some (PDict [("aId", PStr "4"); ("schema", PStr schema); ("records", PStr records)])
    /\ fst (demo_handler (layout_event "records") PNone world0) = Returned (PDict d1)
    /\ fst (demo_handler (layout_event "orders") PNone
              {| trace := []; uuids_drawn := 3 |}) = Returned (PDict d2).
Proof.
  unfold demo_handler.
  destruct (Glue.lambda_handler "bucket" "data/" demo_pages "s3vfs"
              (fun _ _ _ => None) (fun _ _ => (demo_rows, None))
              (fun n => pretty n) (fun _ => "arrow") (fun _ => "repr")
    demo_from_arrays_error
              (layout_event "records") PNone world0) as [[v1 | e |] w1'] eqn:H1;
    try discriminate H1.
  destruct (Glue.lambda_handler "bucket" "data/" demo_pages "s3vfs"
              (fun _ _ _ => None) (fun _ _ => (demo_rows, None))
              (fun n => pretty n) (fun _ => "arrow") (fun _ => "repr")
    demo_from_arrays_error
              (layout_event "orders") PNone {| trace := []; uuids_drawn := 3 |})
    as [[v2 | e |] w2'] eqn:H2; try discriminate H2.
  destruct (table_layout_is_fixed "bucket" "data/" demo_pages "s3vfs"
              (fun _ _ _ => None) (fun _ _ => (demo_rows, None))
              (fun n => pretty n) (fun _ => "arrow") (fun _ => "repr")
    demo_from_arrays_error
              (layout_event "records") (layout_event "orders") PNone PNone v1 v2
              world0 w1' {| trace := []; uuids_drawn := 3 |} w2'
              eq_refl eq_refl H1 H2)
    as (d1 & d2 & schema & records & -> & -> & Hp1 & Hp2 & _).
  exists d1, d2, schema, records. auto.
Defined.

End DemoMore.
